(** * Chess.com ETL pipeline: the fetch, parse, dimension-merge and
    fact-merge steps of [airflow/dags/utils/python_scripts.py], and the
    load of the fact table into the warehouse

    The Python functions are embedded as functions over an explicit blob
    store.  The SQL they hand to the query engine is embedded operator by
    operator (three-valued logic, [NOT IN], [DISTINCT], [UNION],
    [LEFT JOIN], the [ROW_NUMBER] window), tables being lists of records.
    Python exceptions and engine errors are the [Raise] results of a small
    error monad. *)

From Stdlib Require Import ZArith Lia Ascii String Sorted.
From stdpp Require Import base option list gmap strings pretty.

Local Open Scope Z_scope.

(** ** Errors *)

(** The exceptions the modelled code can let escape. *)
Inductive exn : Type :=
  | ConnectionError        (* requests.get: no HTTP response at all *)
  | JSONDecodeError        (* response.json() on a body that is not JSON *)
  | AttributeError         (* data.get on a JSON value that is not an object *)
  | TypeError              (* len() of a value that has no length *)
  | InvalidInputError      (* engine: STRPTIME could not parse its argument *)
  | IOError                (* engine: no such table under the name in FROM *)
  | ValueError.            (* pandas.to_datetime on text outside the format *)

Inductive result (A : Type) : Type :=
  | Ok (a : A)
  | Raise (e : exn).
Arguments Ok {A} a.
Arguments Raise {A} e.

#[global] Instance exn_eq_dec : EqDecision exn.
Proof. solve_decision. Defined.

#[global] Instance result_ret : MRet result := fun _ a => Ok a.
#[global] Instance result_bind : MBind result := fun _ _ f m =>
  match m with
  | Ok a => f a
  | Raise e => Raise e
  end.
#[global] Instance result_fmap : FMap result := fun _ _ f m =>
  match m with
  | Ok a => Ok (f a)
  | Raise e => Raise e
  end.

(** [mapM] for [result]: the rows of a query are produced one after the
    other and the first error aborts the query. *)
Fixpoint traverse {A B} (f : A → result B) (l : list A) : result (list B) :=
  match l with
  | [] => Ok []
  | x :: l' => y ← f x; ys ← traverse f l'; mret (y :: ys)
  end.

(** ** The query engine: three-valued logic and relational operators *)

Module Sql.

(** A nullable column value is an [option]; a SQL truth value is an
    [option bool], [None] being UNKNOWN. *)
Definition eq {K} `{EqDecision K} (a b : option K) : option bool :=
  match a, b with
  | Some x, Some y => Some (bool_decide (x = y))
  | _, _ => None
  end.

Definition or (p q : option bool) : option bool :=
  match p, q with
  | Some true, _ | _, Some true => Some true
  | Some false, Some false => Some false
  | _, _ => None
  end.

Definition not (p : option bool) : option bool := negb <$> p.

(** [x IN (SELECT k FROM ...)]: the disjunction of the comparisons. *)
Definition in_ {K} `{EqDecision K} (x : option K) (keys : list (option K))
  : option bool :=
  foldr (fun k acc => or (eq x k) acc) (Some false) keys.

Definition not_in {K} `{EqDecision K} (x : option K) (keys : list (option K))
  : option bool :=
  not (in_ x keys).

(** WHERE, ON and CASE WHEN keep a row only when the condition is TRUE. *)
Definition is_true (p : option bool) : bool :=
  match p with
  | Some true => true
  | _ => false
  end.

(** [SELECT ... FROM t WHERE c]. *)
Definition where_ {A} (c : A → option bool) (t : list A) : list A :=
  List.filter (fun r => is_true (c r)) t.

(** [SELECT DISTINCT]: one copy of every row, NULLs comparing equal. *)
Definition distinct {A} `{EqDecision A} (t : list A) : list A := remove_dups t.

Definition union_all {A} (t1 t2 : list A) : list A := t1 ++ t2.

(** [UNION] removes duplicate rows from the concatenation. *)
Definition union {A} `{EqDecision A} (t1 t2 : list A) : list A :=
  remove_dups (t1 ++ t2).

(** [l LEFT JOIN r ON c]: every match of a left row, or the left row
    padded with NULLs when it has none. *)
Definition left_join {A B} (c : A → B → option bool) (l : list A) (r : list B)
  : list (A * option B) :=
  a ← l;
  match List.filter (fun b => is_true (c a b)) r with
  | [] => [(a, None)]
  | ms => (fun b => (a, Some b)) <$> ms
  end.

(** How many rows a left row [a] contributes to [l LEFT JOIN r ON c]. *)
Definition copies {A B} (c : A → B → option bool) (a : A) (r : list B) : nat :=
  Nat.max 1 (length (List.filter (fun b => is_true (c a b)) r)).

(** Stable insertion sort, for ORDER BY. *)
Fixpoint insert_by {A} (le : A → A → bool) (x : A) (l : list A) : list A :=
  match l with
  | [] => [x]
  | y :: l' => if le x y then x :: l else y :: insert_by le x l'
  end.

Definition order_by {A} (le : A → A → bool) (t : list A) : list A :=
  foldr (insert_by le) [] t.

End Sql.

(** ** Text functions of the engine *)

Definition dquote : ascii := "034"%char.
Definition newline : ascii := "010"%char.

Module Text.

(** [starts_with p s] is what follows [p] in [s] when [s] begins with [p]. *)
Fixpoint starts_with (p s : string) : option string :=
  match p, s with
  | EmptyString, _ => Some s
  | String a p', String b s' =>
      if decide (a = b) then starts_with p' s' else None
  | String _ _, EmptyString => None
  end.

(** The lazy group [(.*?)] followed by the literal [suf]: the shortest run
    of characters other than a newline after which [suf] matches.  Yields
    the captured run and the text after [suf]. *)
Fixpoint lazy_until (suf s : string) : option (string * string) :=
  match starts_with suf s with
  | Some rest => Some ("", rest)
  | None =>
      match s with
      | EmptyString => None
      | String c s' =>
          if decide (c = newline) then None
          else prod_map (String c) id <$> lazy_until suf s'
      end
  end.

(** A match of [pre(.*?)suf] starting exactly at the head of [s]. *)
Definition match_here (pre suf s : string) : option (string * string) :=
  starts_with pre s ≫= lazy_until suf.

(** The leftmost match of [pre(.*?)suf] in [s]. *)
Fixpoint regexp_find (pre suf s : string) : option (string * string) :=
  match match_here pre suf s with
  | Some r => Some r
  | None =>
      match s with
      | EmptyString => None
      | String _ s' => regexp_find pre suf s'
      end
  end.

(** [REGEXP_EXTRACT(s, 'pre(.*?)suf', 1)]: group 1 of the first match,
    the empty string when the pattern does not match. *)
Definition regexp_extract (pre suf s : string) : string :=
  match regexp_find pre suf s with
  | Some (cap, _) => cap
  | None => ""
  end.

(** [REGEXP_EXTRACT_ALL(s, 'pre(.*?)suf', 1)]: group 1 of every match, each
    search resuming where the previous match ended.  [fuel] bounds the
    number of matches. *)
Fixpoint regexp_extract_all_go (fuel : nat) (pre suf s : string) : list string :=
  match fuel with
  | O => []
  | S fuel' =>
      match regexp_find pre suf s with
      | Some (cap, rest) => cap :: regexp_extract_all_go fuel' pre suf rest
      | None => []
      end
  end.

Definition regexp_extract_all (pre suf s : string) : list string :=
  regexp_extract_all_go (S (String.length s)) pre suf s.

(** [REPLACE(s, a, b)] for one-character [a] and [b]. *)
Fixpoint replace (a b : ascii) (s : string) : string :=
  match s with
  | EmptyString => EmptyString
  | String c s' => String (if decide (c = a) then b else c) (replace a b s')
  end.

(** [ARRAY_TO_STRING(l, sep)] and Python's [sep.join(l)]. *)
Fixpoint join (sep : string) (l : list string) : string :=
  match l with
  | [] => ""
  | [x] => x
  | x :: l' => x +:+ sep +:+ join sep l'
  end.

(** [occurs p s]: [p] is a substring of [s]. *)
Definition occurs (p s : string) : Prop :=
  ∃ a b, s = a +:+ p +:+ b.

(** The same, as a test. *)
Fixpoint contains (p s : string) : bool :=
  match starts_with p s with
  | Some _ => true
  | None =>
      match s with
      | EmptyString => false
      | String _ s' => contains p s'
      end
  end.

End Text.

(** ** Calendar dates, times of day and timestamps *)

Module Calendar.

(** A DATE value (proleptic Gregorian) and a TIME value without fraction. *)
Record date : Type := Date { year : Z; month : Z; day : Z }.
Record time : Type := Time { hour : Z; minute : Z; second : Z }.

#[global] Instance date_eq_dec : EqDecision date.
Proof. solve_decision. Defined.
#[global] Instance time_eq_dec : EqDecision time.
Proof. solve_decision. Defined.

Definition is_leap (y : Z) : bool :=
  (y mod 4 =? 0) && (negb (y mod 100 =? 0) || (y mod 400 =? 0)).

Definition days_in_month (y m : Z) : Z :=
  match m with
  | 2 => if is_leap y then 29 else 28
  | 4 | 6 | 9 | 11 => 30
  | _ => 31
  end.

Definition valid_date (d : date) : bool :=
  (1 <=? month d) && (month d <=? 12) &&
  (1 <=? day d) && (day d <=? days_in_month (year d) (month d)).

Definition valid_time (t : time) : bool :=
  (0 <=? hour t) && (hour t <? 24) &&
  (0 <=? minute t) && (minute t <? 60) &&
  (0 <=? second t) && (second t <? 60).

(** Days in the years before [y], and in the months of [y] before [m]. *)
Definition days_before_year (y : Z) : Z :=
  let p := y - 1 in p * 365 + p / 4 - p / 100 + p / 400.

Definition days_before_month (y m : Z) : Z :=
  match m with
  | 1 => 0 | 2 => 31 | 3 => 59 | 4 => 90 | 5 => 120 | 6 => 151
  | 7 => 181 | 8 => 212 | 9 => 243 | 10 => 273 | 11 => 304 | _ => 334
  end + (if (2 <? m) && is_leap y then 1 else 0).

(** Days since 1970-01-01. *)
Definition epoch_days (d : date) : Z :=
  days_before_year (year d) + days_before_month (year d) (month d) + day d
  - 719163.

Definition seconds_of_time (t : time) : Z :=
  hour t * 3600 + minute t * 60 + second t.

(** A TIMESTAMP, in whole seconds since the epoch (the format strings of
    the pipeline carry no fraction of a second). *)
Definition timestamp_of (d : date) (t : time) : Z :=
  epoch_days d * 86400 + seconds_of_time t.

(** The calendar day after [d]. *)
Definition next_day (d : date) : date :=
  if day d <? days_in_month (year d) (month d)
  then Date (year d) (month d) (day d + 1)
  else if month d <? 12 then Date (year d) (month d + 1) 1
  else Date (year d + 1) 1 1.

(** [date_diff('seconds', a, b)::BIGINT]. *)
Definition date_diff_seconds (a b : Z) : Z := b - a.

End Calendar.

(** ** STRPTIME *)

Module Strptime.
Import Calendar.

Definition is_space (c : ascii) : bool :=
  let n := nat_of_ascii c in
  (n =? 32)%nat || ((9 <=? n)%nat && (n <=? 13)%nat).

Fixpoint skip_spaces (s : string) : string :=
  match s with
  | String c s' => if is_space c then skip_spaces s' else s
  | EmptyString => s
  end.

Definition digit_of (c : ascii) : option Z :=
  let n := nat_of_ascii c in
  if (48 <=? n)%nat && (n <=? 57)%nat then Some (Z.of_nat n - 48) else None.

(** A numeric specifier reads digits up to its width ([%Y]: 4, the others
    of the two formats: 2) and needs at least one. *)
Fixpoint digits (width : nat) (acc : Z) (s : string) : Z * string :=
  match width, s with
  | S w, String c s' =>
      match digit_of c with
      | Some d => digits w (acc * 10 + d) s'
      | None => (acc, s)
      end
  | _, _ => (acc, s)
  end.

Definition number (width : nat) (s : string) : option (Z * string) :=
  match width, s with
  | S w, String c s' => (fun d => digits w d s') <$> digit_of c
  | _, _ => None
  end.

Definition literal (c : ascii) (s : string) : option string :=
  match s with
  | String c' s' => if decide (c' = c) then Some s' else None
  | EmptyString => None
  end.

(** Three numbers of the given widths separated by [sep], blanks allowed
    before the first and after the last. *)
Definition three_numbers (w1 w2 w3 : nat) (sep : ascii) (s : string)
  : option (Z * Z * Z) :=
  '(a, s) ← number w1 (skip_spaces s);
  s ← literal sep s;
  '(b, s) ← number w2 s;
  s ← literal sep s;
  '(c, s) ← number w3 s;
  match skip_spaces s with
  | EmptyString => Some (a, b, c)
  | String _ _ => None
  end.

(** [STRPTIME(s, '%Y/%m/%d')::DATE]; the engine raises when [s] does not
    follow the format ([TRY_STRPTIME] would yield NULL instead). *)
Definition strptime_date (s : string) : result date :=
  match three_numbers 4 2 2 "/" s with
  | Some (y, m, d) =>
      if valid_date (Date y m d) then Ok (Date y m d) else Raise InvalidInputError
  | None => Raise InvalidInputError
  end.

(** [STRPTIME(s, '%H:%M:%S')::TIME]. *)
Definition strptime_time (s : string) : result time :=
  match three_numbers 2 2 2 ":" s with
  | Some (h, m, sec) =>
      if valid_time (Time h m sec) then Ok (Time h m sec) else Raise InvalidInputError
  | None => Raise InvalidInputError
  end.

End Strptime.

(** ** Tables *)

(** JSON values, as [json.load] and [json.dump] see them.  An object is the
    parsed dict, one entry per key. *)
#[warnings="-register-all"]
Inductive json : Type :=
  | JNull
  | JBool (b : bool)
  | JInt (n : Z)
  | JReal (literal : string)
  | JStr (s : string)
  | JArr (items : list json)
  | JObj (members : list (string * json)).

(** A game record of the bronze file, as the engine reads it: the columns the
    transform selects.  [pgn] is the notation blob. *)
Module Raw.
Record player : Type := Player { rating : option Z; result : option string }.
Record game : Type := Game {
  url : option string;
  time_control : option string;
  rated : option bool;
  time_class : option string;
  rules : option string;
  white : player;
  black : player;
  pgn : string;
}.
End Raw.

(** The silver table.  [T] is the type of the two time columns: a TIME in
    the result of the SELECT, a TIMESTAMP once pandas has rebuilt them. *)
Module Silver.
Record row (T : Type) : Type := Row {
  game_url : option string;
  time_control : option string;
  rated : option bool;
  time_class : option string;
  rules : option string;
  white_rating : option Z;
  white_result : option string;
  black_rating : option Z;
  black_result : option string;
  pgn_event : option string;
  pgn_site : option string;
  game_date : option Calendar.date;
  pgn_white_user : option string;
  pgn_black_user : option string;
  pgn_result : option string;
  pgn_current_position : option string;
  pgn_timezone : option string;
  pgn_eco : option string;
  pgn_eco_url : option string;
  start_time : option T;
  end_time : option T;
  end_game_date : option Calendar.date;
  pgn_raw : option string;
  pgn_trans : option string;
}.
Arguments Row {T}.
Arguments game_url {T}. Arguments time_control {T}. Arguments rated {T}.
Arguments time_class {T}. Arguments rules {T}. Arguments white_rating {T}.
Arguments white_result {T}. Arguments black_rating {T}.
Arguments black_result {T}. Arguments pgn_event {T}. Arguments pgn_site {T}.
Arguments game_date {T}. Arguments pgn_white_user {T}.
Arguments pgn_black_user {T}. Arguments pgn_result {T}.
Arguments pgn_current_position {T}. Arguments pgn_timezone {T}.
Arguments pgn_eco {T}. Arguments pgn_eco_url {T}. Arguments start_time {T}.
Arguments end_time {T}. Arguments end_game_date {T}. Arguments pgn_raw {T}.
Arguments pgn_trans {T}.

(** Assigning the two time columns, as the data-frame code does. *)
Definition set_times {T T'} (r : row T) (st et : option T') : row T' :=
  Row (game_url r) (time_control r) (rated r) (time_class r) (rules r)
      (white_rating r) (white_result r) (black_rating r) (black_result r)
      (pgn_event r) (pgn_site r) (game_date r) (pgn_white_user r)
      (pgn_black_user r) (pgn_result r) (pgn_current_position r)
      (pgn_timezone r) (pgn_eco r) (pgn_eco_url r) st et (end_game_date r)
      (pgn_raw r) (pgn_trans r).

(** The table as stored: both time columns are timestamps. *)
Abbreviation t := (list (row Z)).
End Silver.

(** gold/dim_openings.parquet *)
Module DimOpenings.
Record row : Type := Row {
  pgn_eco_url : option string;
  opening_name : option string;
  opening_family : option string;
  opening_variation : option string;
  eco_code : option string;
}.
#[global] Instance row_eq_dec : EqDecision row.
Proof. solve_decision. Defined.
End DimOpenings.

(** gold/dim_date.parquet *)
Module DimDate.
Record row : Type := Row {
  game_date : option Calendar.date;
  year : option Z;
  month : option Z;
  month_name : option string;
  day : option Z;
  weekday : option string;
  quarter : option Z;
}.
#[global] Instance row_eq_dec : EqDecision row.
Proof. solve_decision. Defined.
End DimDate.

(** gold/dim_time_control.parquet *)
Module DimTimeControl.
Record row : Type := Row {
  time_control : option string;
  time_class : option string;
}.
#[global] Instance row_eq_dec : EqDecision row.
Proof. solve_decision. Defined.
End DimTimeControl.

(** gold/dim_results.parquet *)
Module DimResults.
Record row : Type := Row {
  result_code : option string;
  result : option string;
  description : option string;
}.
#[global] Instance row_eq_dec : EqDecision row.
Proof. solve_decision. Defined.
End DimResults.

(** gold/fact-games.parquet.  [last_updated] is the cast of the run's
    execution date, which every row written by the pipeline carries. *)
Module Fact.
Record row : Type := Row {
  game_url : option string;
  game_date : option Calendar.date;
  start_time : option Z;
  end_time : option Z;
  game_duration_secs : option Z;
  time_control : option string;
  my_color : option string;
  my_username : option string;
  opponent_username : option string;
  my_rating : option Z;
  opponent_rating : option Z;
  my_result : option string;
  opponent_result : option string;
  game_fen : option string;
  opening_url : option string;
  game_pgn : option string;
  moves : option Z;
  last_updated : Z;
}.
#[global] Instance row_eq_dec : EqDecision row.
Proof. solve_decision. Defined.
End Fact.

(** ** The blob store *)

(** What a blob of the container holds: the bronze JSON, or one of the
    parquet tables with its schema. *)
Inductive blob : Type :=
  | JsonBlob (j : json)
  | SilverBlob (t : Silver.t)
  | DimOpeningsBlob (t : list DimOpenings.row)
  | DimDateBlob (t : list DimDate.row)
  | DimTimeControlBlob (t : list DimTimeControl.row)
  | DimResultsBlob (t : list DimResults.row)
  | FactBlob (t : list Fact.row).

(** The container [chess-etl-files]: blob name to content. *)
Abbreviation store := (gmap string blob).

(** [az_hook.check_for_blob]. *)
Definition check_for_blob (st : store) (blob_name : string) : bool :=
  bool_decide (is_Some (st !! blob_name)).

(** [az_hook.load_file(..., overwrite=True)]. *)
Definition load_file (blob_name : string) (b : blob) (st : store) : store :=
  <[blob_name := b]> st.

(** [FROM '<path>']: the engine raises when the blob is missing or is not a
    table of the columns the query names. *)
Definition read_silver (st : store) (name : string) : result Silver.t :=
  match st !! name with
  | Some (SilverBlob t) => Ok t
  | _ => Raise IOError
  end.
Definition read_dim_openings (st : store) (name : string)
  : result (list DimOpenings.row) :=
  match st !! name with
  | Some (DimOpeningsBlob t) => Ok t
  | _ => Raise IOError
  end.
Definition read_dim_date (st : store) (name : string)
  : result (list DimDate.row) :=
  match st !! name with
  | Some (DimDateBlob t) => Ok t
  | _ => Raise IOError
  end.
Definition read_dim_time_control (st : store) (name : string)
  : result (list DimTimeControl.row) :=
  match st !! name with
  | Some (DimTimeControlBlob t) => Ok t
  | _ => Raise IOError
  end.
Definition read_dim_results (st : store) (name : string)
  : result (list DimResults.row) :=
  match st !! name with
  | Some (DimResultsBlob t) => Ok t
  | _ => Raise IOError
  end.
Definition read_fact (st : store) (name : string) : result (list Fact.row) :=
  match st !! name with
  | Some (FactBlob t) => Ok t
  | _ => Raise IOError
  end.

(** ** Step 1: fetch and land the raw games *)

(** What [requests.get] comes back with: no response at all (the call
    raises), or a status code and a body, [None] when the body is not JSON. *)
Inductive http_outcome : Type :=
  | NoResponse
  | Response (status_code : Z) (body : option json).

(** The value a Python function returns. *)
Inductive pyvalue : Type :=
  | PyNone
  | PyBool (b : bool)
  | PyList (items : list json).

(** [f"{n:02}"] for an int: the decimal text, zero-padded to two
    characters. *)
Definition fmt02 (n : Z) : string :=
  let s := pretty n in
  if (String.length s <? 2)%nat then "0" +:+ s else s.

Definition requests_get (api : string → http_outcome) (url : string)
  : result (Z * option json) :=
  match api url with
  | NoResponse => Raise ConnectionError
  | Response code body => Ok (code, body)
  end.

(** [response.json()]. *)
Definition response_json (body : option json) : result json :=
  match body with
  | Some j => Ok j
  | None => Raise JSONDecodeError
  end.

Fixpoint assoc (k : string) (o : list (string * json)) : option json :=
  match o with
  | [] => None
  | (k', v) :: o' => if decide (k' = k) then Some v else assoc k o'
  end.

(** [data.get(key, default)]. *)
Definition dict_get (data : json) (key : string) (dflt : json) : result json :=
  match data with
  | JObj o => Ok (default dflt (assoc key o))
  | _ => Raise AttributeError
  end.

(** [len(x)]. *)
Definition py_len (x : json) : result nat :=
  match x with
  | JArr l => Ok (length l)
  | JObj o => Ok (length o)
  | JStr s => Ok (String.length s)
  | _ => Raise TypeError
  end.

Definition container_name : string := "chess-etl-files".

Definition games_url (username : string) (year month : Z) : string :=
  "https://api.chess.com/pub/player/" +:+ username +:+ "/games/"
  +:+ pretty year +:+ "/" +:+ fmt02 month.
Definition bronze_blob_name (year month : Z) : string :=
  "bronze/" +:+ pretty year +:+ "-" +:+ fmt02 month +:+ "-games.json".
Definition silver_blob_name (year month : Z) : string :=
  "silver/fact-" +:+ pretty year +:+ "-" +:+ fmt02 month +:+ "-games.parquet".

(** [extract_and_load_chess_data(username, year, month)], run against the
    remote service [api] and the store [st].  The log lines are dropped,
    except that the one reporting [len(pulled_data)] has to evaluate it. *)
Definition extract_and_load_chess_data
    (api : string → http_outcome) (username : string) (year month : Z)
    (st : store) : result (pyvalue * store) :=
  let url := games_url username year month in
  '(status_code, body) ← requests_get api url;
  pulled_data ←
    (if status_code =? 200 then
       data ← response_json body;
       pulled_data ← dict_get data "games" (JArr []);
       _ ← py_len pulled_data;
       mret pulled_data
     else
       mret (JArr []));
  let blobname := bronze_blob_name year month in
  mret (PyBool true, load_file blobname (JsonBlob pulled_data) st).

(** ** Step 2: parse the notation blob into the silver table *)

(** The functions [udfs.initialize_udfs] registers with the engine, the
    engine's reader of the bronze JSON file, and the order in which its
    window operator leaves two rows of equal [last_updated] ([tie_break r b]:
    [r] comes before [b]).  Their code is in [utils/udfs] and in the engine;
    the pipeline is embedded against any such functions. *)
Record env : Type := Env {
  format_time_control : option string → option string;
  get_pgn_depth : option string → option Z;
  extract_opening_name : option string → option string;
  get_opening_family : option string → option string;
  get_opening_variation : option string → option string;
  read_json : json → result (list Raw.game);
  tie_break : Fact.row → Fact.row → bool;
}.

(** Modelled from the spec: [add_move_numbers], a function of [utils/udfs],
    whose code is not among the sources.  Section 4.1: it "takes the ordered
    move-token sequence and re-annotates it with explicit move numbers ...
    assuming tokens alternate white/black starting at move 1 ... no state
    beyond an incrementing counter"; section 8: tokens [a,b,c,d,e] give
    "1. a b 2. c d 3. e". *)
Fixpoint number_moves (n : nat) (tokens : list string) : list string :=
  match tokens with
  | [] => []
  | [w] => [pretty n +:+ ". " +:+ w]
  | w :: b :: rest =>
      (pretty n +:+ ". " +:+ w +:+ " " +:+ b) :: number_moves (S n) rest
  end.

Definition add_move_numbers (tokens : list string) : string :=
  Text.join " " (number_moves 1 tokens).

(** The literal text a tag pattern starts with: an opening bracket, the tag
    name, a blank and a double quote. *)
Definition tag_opening (name : string) : string :=
  "[" +:+ name +:+ " " +:+ String dquote "".

(** [REGEXP_EXTRACT(pgn, '\[Name "(.*?)"', 1)]. *)
Definition tag (name pgn : string) : string :=
  Text.regexp_extract (tag_opening name) (String dquote "") pgn.

(** [REGEXP_EXTRACT_ALL(pgn, '\. (.*?) {\[', 1)]. *)
Definition move_tokens (pgn : string) : list string :=
  Text.regexp_extract_all ". " " {[" pgn.

(** The SELECT of [transform_json_to_fact_table], for one game. *)
Definition select_silver (g : Raw.game) : result (Silver.row Calendar.time) :=
  let pgn := Raw.pgn g in
  game_date ← Strptime.strptime_date (Text.replace "." "/" (tag "Date" pgn));
  start_time ← Strptime.strptime_time (tag "StartTime" pgn);
  end_time ← Strptime.strptime_time (tag "EndTime" pgn);
  end_game_date ← Strptime.strptime_date (Text.replace "." "/" (tag "EndDate" pgn));
  mret {|
    Silver.game_url := Raw.url g;
    Silver.time_control := Raw.time_control g;
    Silver.rated := Raw.rated g;
    Silver.time_class := Raw.time_class g;
    Silver.rules := Raw.rules g;
    Silver.white_rating := Raw.rating (Raw.white g);
    Silver.white_result := Raw.result (Raw.white g);
    Silver.black_rating := Raw.rating (Raw.black g);
    Silver.black_result := Raw.result (Raw.black g);
    Silver.pgn_event := Some (tag "Event" pgn);
    Silver.pgn_site := Some (tag "Site" pgn);
    Silver.game_date := Some game_date;
    Silver.pgn_white_user := Some (tag "White" pgn);
    Silver.pgn_black_user := Some (tag "Black" pgn);
    Silver.pgn_result := Some (tag "Result" pgn);
    Silver.pgn_current_position := Some (tag "CurrentPosition" pgn);
    Silver.pgn_timezone := Some (tag "Timezone" pgn);
    Silver.pgn_eco := Some (tag "ECO" pgn);
    Silver.pgn_eco_url := Some (tag "ECOUrl" pgn);
    Silver.start_time := Some start_time;
    Silver.end_time := Some end_time;
    Silver.end_game_date := Some end_game_date;
    Silver.pgn_raw := Some (Text.join " " (move_tokens pgn));
    Silver.pgn_trans := Some (add_move_numbers (move_tokens pgn));
  |}.

(** The columns of the SELECT that hold the text of a tag as it is, by tag
    name; the four other tags go through STRPTIME. *)
Definition plain_column {T} (name : string)
  : option (Silver.row T → option string) :=
  if decide (name = "Event") then Some Silver.pgn_event
  else if decide (name = "Site") then Some Silver.pgn_site
  else if decide (name = "White") then Some Silver.pgn_white_user
  else if decide (name = "Black") then Some Silver.pgn_black_user
  else if decide (name = "Result") then Some Silver.pgn_result
  else if decide (name = "CurrentPosition") then Some Silver.pgn_current_position
  else if decide (name = "Timezone") then Some Silver.pgn_timezone
  else if decide (name = "ECO") then Some Silver.pgn_eco
  else if decide (name = "ECOUrl") then Some Silver.pgn_eco_url
  else None.

Definition strptime_tags : list string :=
  ["Date"; "StartTime"; "EndTime"; "EndDate"].

(** [pd.to_datetime(date.astype(str) + " " + time.astype(str),
    format="%Y-%m-%d %H:%M:%S")] for one row: the timestamp of that date at
    that time of day.  A missing date or time prints as text outside the
    format, and a timestamp outside the 64-bit nanosecond range is out of
    bounds; both raise. *)
Definition to_datetime (d : option Calendar.date) (t : option Calendar.time)
  : result (option Z) :=
  match d, t with
  | Some d, Some t =>
      let ts := Calendar.timestamp_of d t in
      if (- 2 ^ 63 <? ts * 10 ^ 9) && (ts * 10 ^ 9 <? 2 ^ 63)
      then Ok (Some ts) else Raise ValueError
  | _, _ => Raise ValueError
  end.

(** The two assignments to [fct["start_time"]] and [fct["end_time"]]: each
    timestamp is rebuilt from its own date column and its own time column. *)
Definition rebuild_timestamps (r : Silver.row Calendar.time)
  : result (Silver.row Z) :=
  start_time ← to_datetime (Silver.game_date r) (Silver.start_time r);
  end_time ← to_datetime (Silver.end_game_date r) (Silver.end_time r);
  mret (Silver.set_times r start_time end_time).

Definition transform_game (g : Raw.game) : result (Silver.row Z) :=
  select_silver g ≫= rebuild_timestamps.

(** [transform_json_to_fact_table(year, month)]: the new store and the blob
    name pushed to XCom under [fact_blob_name].  The SELECT runs over every
    game before the data-frame code does. *)
Definition transform_json_to_fact_table (E : env) (year month : Z) (st : store)
  : result (string * store) :=
  let source_blob_name := bronze_blob_name year month in
  let destination_blob_name := silver_blob_name year month in
  games ← match st !! source_blob_name with
          | Some (JsonBlob j) => read_json E j
          | _ => Raise IOError
          end;
  fct ← traverse select_silver games;
  fct ← traverse rebuild_timestamps fct;
  mret (destination_blob_name, load_file destination_blob_name (SilverBlob fct) st).

(** ** Step 3: the dimension tables of the gold layer *)

Definition dim_openings_file : string := "gold/dim_openings.parquet".
Definition dim_date_file : string := "gold/dim_date.parquet".
Definition dim_time_control_file : string := "gold/dim_time_control.parquet".
Definition dim_results_file : string := "gold/dim_results.parquet".
Definition fact_file : string := "gold/fact-games.parquet".

Section Dimensions.
Variable E : env.

(** *** Openings *)

(** The select list of both queries of [load_dim_openings]. *)
Definition opening_row (s : Silver.row Z) : DimOpenings.row :=
  let opening_name := extract_opening_name E (Silver.pgn_eco_url s) in
  {| DimOpenings.pgn_eco_url := Silver.pgn_eco_url s;
     DimOpenings.opening_name := opening_name;
     DimOpenings.opening_family := get_opening_family E opening_name;
     DimOpenings.opening_variation := get_opening_variation E opening_name;
     DimOpenings.eco_code := Silver.pgn_eco s |}.

(** The query run when the dimension file exists. *)
Definition dim_openings_merge (source : Silver.t)
    (destination : list DimOpenings.row) : list DimOpenings.row :=
  Sql.union
    (Sql.distinct
       (opening_row <$>
          Sql.where_
            (fun s => Sql.not_in (Silver.pgn_eco_url s)
                        (DimOpenings.pgn_eco_url <$> destination))
            source))
    destination.

(** The query run when it does not. *)
Definition dim_openings_initial (source : Silver.t) : list DimOpenings.row :=
  Sql.distinct (opening_row <$> source).

Definition load_dim_openings (filename : string) (st : store) : result store :=
  let file_exists := check_for_blob st dim_openings_file in
  source ← read_silver st filename;
  cur_dim_openings ←
    (if file_exists then
       destination ← read_dim_openings st dim_openings_file;
       mret (dim_openings_merge source destination)
     else
       mret (dim_openings_initial source));
  mret (load_file dim_openings_file (DimOpeningsBlob cur_dim_openings) st).

(** *** Dates *)

Definition month_names : list string :=
  ["January"; "February"; "March"; "April"; "May"; "June"; "July";
   "August"; "September"; "October"; "November"; "December"].
Definition weekday_names : list string :=
  ["Monday"; "Tuesday"; "Wednesday"; "Thursday"; "Friday"; "Saturday";
   "Sunday"].

(** [strftime('%B', d)] and [strftime('%A', d)]; 1970-01-01 was a Thursday. *)
Definition strftime_B (d : Calendar.date) : string :=
  default "" (month_names !! Z.to_nat (Calendar.month d - 1)).
Definition strftime_A (d : Calendar.date) : string :=
  default "" (weekday_names !! Z.to_nat ((Calendar.epoch_days d + 3) mod 7)).

(** The CASE of the select list: a NULL date matches no WHEN and falls to
    the ELSE. *)
Definition quarter_of (d : option Calendar.date) : Z :=
  match d with
  | Some d =>
      let m := Calendar.month d in
      if (1 <=? m) && (m <=? 3) then 1
      else if (4 <=? m) && (m <=? 6) then 2
      else if (7 <=? m) && (m <=? 9) then 3
      else 4
  | None => 4
  end.

Definition date_row (s : Silver.row Z) : DimDate.row :=
  let game_date := Silver.game_date s in
  {| DimDate.game_date := game_date;
     DimDate.year := Calendar.year <$> game_date;
     DimDate.month := Calendar.month <$> game_date;
     DimDate.month_name := strftime_B <$> game_date;
     DimDate.day := Calendar.day <$> game_date;
     DimDate.weekday := strftime_A <$> game_date;
     DimDate.quarter := Some (quarter_of game_date) |}.

Definition dim_date_merge (source : Silver.t) (destination : list DimDate.row)
  : list DimDate.row :=
  Sql.union
    (Sql.distinct
       (date_row <$>
          Sql.where_
            (fun s => Sql.not_in (Silver.game_date s)
                        (DimDate.game_date <$> destination))
            source))
    destination.

(** [ORDER BY game_date]: ascending, NULLs last. *)
Definition date_le (a b : DimDate.row) : bool :=
  match DimDate.game_date a, DimDate.game_date b with
  | Some x, Some y => Calendar.epoch_days x <=? Calendar.epoch_days y
  | Some _, None => true
  | None, Some _ => false
  | None, None => true
  end.

Definition dim_date_initial (source : Silver.t) : list DimDate.row :=
  Sql.order_by date_le (Sql.distinct (date_row <$> source)).

Definition load_dim_date (filename : string) (st : store) : result store :=
  let file_exists := check_for_blob st dim_date_file in
  source ← read_silver st filename;
  dim_date ←
    (if file_exists then
       destination ← read_dim_date st dim_date_file;
       mret (dim_date_merge source destination)
     else
       mret (dim_date_initial source));
  mret (load_file dim_date_file (DimDateBlob dim_date) st).

(** *** Time controls *)

Definition time_control_row (s : Silver.row Z) : DimTimeControl.row :=
  {| DimTimeControl.time_control := format_time_control E (Silver.time_control s);
     DimTimeControl.time_class := Silver.time_class s |}.

(** In the WHERE clause [time_control] is the column of the source table,
    the raw code, not the formatted value of the select list. *)
Definition dim_time_control_merge (source : Silver.t)
    (destination : list DimTimeControl.row) : list DimTimeControl.row :=
  Sql.union
    (Sql.distinct
       (time_control_row <$>
          Sql.where_
            (fun s => Sql.not_in (Silver.time_control s)
                        (DimTimeControl.time_control <$> destination))
            source))
    destination.

(** Without DISTINCT: one row per game. *)
Definition dim_time_control_initial (source : Silver.t)
  : list DimTimeControl.row :=
  time_control_row <$> source.

Definition load_dim_time_control (filename : string) (st : store)
  : result store :=
  let file_exists := check_for_blob st dim_time_control_file in
  source ← read_silver st filename;
  dim_time_control ←
    (if file_exists then
       destination ← read_dim_time_control st dim_time_control_file;
       mret (dim_time_control_merge source destination)
     else
       mret (dim_time_control_initial source));
  mret (load_file dim_time_control_file
          (DimTimeControlBlob dim_time_control) st).

(** *** Results *)

Definition result_row (code res descr : string) : DimResults.row :=
  DimResults.Row (Some code) (Some res) (Some descr).

(** The UNION ALL of constant rows. *)
Definition dim_results_seed : list DimResults.row :=
  [ result_row "win" "Win" "Win";
    result_row "checkmated" "Loss" "Checkmated";
    result_row "agreed" "Draw" "Draw agreed";
    result_row "repetition" "Draw" "Draw by repetition";
    result_row "timeout" "Win" "Timeout";
    result_row "resigned" "Loss" "Resigned";
    result_row "stalemate" "Draw" "Stalemate";
    result_row "lose" "Loss" "Lose";
    result_row "insufficient" "Draw" "Insufficient material";
    result_row "50move" "Draw" "Draw by 50-move rule";
    result_row "abandoned" "Draw" "Abandoned";
    result_row "kingofthehill" "Win" "Opponent king reached the hill";
    result_row "threecheck" "Win" "Checked for the 3rd time";
    result_row "timevsinsufficient" "Draw"
      "Draw by timeout vs insufficient material";
    result_row "bughousepartnerlose" "Loss" "Bughouse partner lost" ].

(** When the file exists the query over it is built and never used, and
    nothing is uploaded: the upload is inside the [else]. *)
Definition load_dim_results (filename : string) (st : store) : result store :=
  let file_exists := check_for_blob st dim_results_file in
  if file_exists then
    _ ← read_dim_results st dim_results_file;
    mret st
  else
    mret (load_file dim_results_file (DimResultsBlob dim_results_seed) st).

End Dimensions.

(** ** Step 4: the fact table *)

Section FactTable.
Variable E : env.

Definition my_username_literal : string := "Rhythmbear1".

(** [date_diff('seconds', start_time, end_time)::BIGINT] on nullable
    columns. *)
Definition duration_secs (start_time end_time : option Z) : option Z :=
  match start_time, end_time with
  | Some a, Some b => Some (Calendar.date_diff_seconds a b)
  | _, _ => None
  end.

(** The select list of the first query of [load_fact_table]; [exec_date]
    is the timestamp the run's execution date casts to. *)
Definition fct_row (exec_date : Z) (s : Silver.row Z) : Fact.row :=
  let i_am_white :=
    Sql.is_true (Sql.eq (Silver.pgn_white_user s) (Some my_username_literal)) in
  {| Fact.game_url := Silver.game_url s;
     Fact.game_date := Silver.game_date s;
     Fact.start_time := Silver.start_time s;
     Fact.end_time := Silver.end_time s;
     Fact.game_duration_secs :=
       duration_secs (Silver.start_time s) (Silver.end_time s);
     Fact.time_control := format_time_control E (Silver.time_control s);
     Fact.my_color := Some (if i_am_white then "white" else "black");
     Fact.my_username :=
       if i_am_white then Silver.pgn_white_user s else Silver.pgn_black_user s;
     Fact.opponent_username :=
       if i_am_white then Silver.pgn_black_user s else Silver.pgn_white_user s;
     Fact.my_rating :=
       if i_am_white then Silver.white_rating s else Silver.black_rating s;
     Fact.opponent_rating :=
       if i_am_white then Silver.black_rating s else Silver.white_rating s;
     Fact.my_result :=
       if i_am_white then Silver.white_result s else Silver.black_result s;
     Fact.opponent_result :=
       if i_am_white then Silver.black_result s else Silver.white_result s;
     Fact.game_fen := Silver.pgn_current_position s;
     Fact.opening_url := Silver.pgn_eco_url s;
     Fact.game_pgn := Silver.pgn_trans s;
     Fact.moves := get_pgn_depth E (Silver.pgn_trans s);
     Fact.last_updated := exec_date |}.

(** The ON clauses of the five left joins. *)
Definition on_date (fact : Fact.row) (d : DimDate.row) : option bool :=
  Sql.eq (Fact.game_date fact) (DimDate.game_date d).
Definition on_opening (fact : Fact.row) (o : DimOpenings.row) : option bool :=
  Sql.eq (Fact.opening_url fact) (DimOpenings.pgn_eco_url o).
Definition on_my_result (fact : Fact.row) (r : DimResults.row) : option bool :=
  Sql.eq (Fact.my_result fact) (DimResults.result_code r).
Definition on_opponent_result (fact : Fact.row) (r : DimResults.row)
  : option bool :=
  Sql.eq (Fact.opponent_result fact) (DimResults.result_code r).
Definition on_time_control (fact : Fact.row) (c : DimTimeControl.row)
  : option bool :=
  Sql.eq (Fact.time_control fact) (DimTimeControl.time_control c).

(** The second query: [SELECT fact.*] over the five left joins. *)
Definition join_dimensions (fct : list Fact.row)
    (dim_date : list DimDate.row) (dim_openings : list DimOpenings.row)
    (dim_results : list DimResults.row)
    (dim_time_control : list DimTimeControl.row) : list Fact.row :=
  let j1 := Sql.left_join (fun fact d => on_date fact d) fct dim_date in
  let j2 := Sql.left_join (fun x o => on_opening x.1 o) j1 dim_openings in
  let j3 := Sql.left_join (fun x r => on_my_result x.1.1 r) j2 dim_results in
  let j4 := Sql.left_join (fun x r => on_opponent_result x.1.1.1 r)
              j3 dim_results in
  let j5 := Sql.left_join (fun x c => on_time_control x.1.1.1.1 c)
              j4 dim_time_control in
  (fun x => x.1.1.1.1.1) <$> j5.

(** The number of joined rows one fact row gives rise to. *)
Definition fan_out (dim_date : list DimDate.row)
    (dim_openings : list DimOpenings.row) (dim_results : list DimResults.row)
    (dim_time_control : list DimTimeControl.row) (fact : Fact.row) : nat :=
  (Sql.copies on_date fact dim_date
   * Sql.copies on_opening fact dim_openings
   * Sql.copies on_my_result fact dim_results
   * Sql.copies on_opponent_result fact dim_results
   * Sql.copies on_time_control fact dim_time_control)%nat.

(** [ORDER BY last_updated DESC] between two rows of one partition: [r]
    is numbered before [b]. *)
Definition before (r b : Fact.row) : bool :=
  (Fact.last_updated b <? Fact.last_updated r) ||
  ((Fact.last_updated b =? Fact.last_updated r) && tie_break E r b).

(** One step of the numbering: the first row so far, after [r] is seen. *)
Definition later_of (best : option Fact.row) (r : Fact.row) : option Fact.row :=
  match best with
  | None => Some r
  | Some b => if before r b then Some r else Some b
  end.

(** The row numbered 1 in a partition. *)
Definition first_row (partition : list Fact.row) : option Fact.row :=
  foldl later_of None partition.

Definition partition_of (u : option string) (t : list Fact.row)
  : list Fact.row :=
  List.filter (fun r => bool_decide (Fact.game_url r = u)) t.

(** [SELECT * FROM (SELECT *, ROW_NUMBER() OVER (PARTITION BY game_url
    ORDER BY last_updated DESC) AS rn FROM t) WHERE rn = 1], the [rn]
    column dropped. *)
Definition keep_latest (t : list Fact.row) : list Fact.row :=
  omap (fun u => first_row (partition_of u t))
       (remove_dups (Fact.game_url <$> t)).

(** The branch of [load_fact_table] taken when the fact file exists. *)
Definition merge_fact (prev_fact_table fact_table : list Fact.row)
  : list Fact.row :=
  let both_tables := Sql.union_all prev_fact_table fact_table in
  keep_latest both_tables.

Definition load_fact_table (filename : string) (exec_date : Z) (st : store)
  : result store :=
  let file_exists := check_for_blob st fact_file in
  source ← read_silver st filename;
  let fct := fct_row exec_date <$> source in
  dim_date ← read_dim_date st dim_date_file;
  dim_openings ← read_dim_openings st dim_openings_file;
  dim_results ← read_dim_results st dim_results_file;
  dim_time_control ← read_dim_time_control st dim_time_control_file;
  let fact_table :=
    join_dimensions fct dim_date dim_openings dim_results dim_time_control in
  new_fact_table ←
    (if file_exists then
       prev_fact_table ← read_fact st fact_file;
       mret (merge_fact prev_fact_table fact_table)
     else
       mret fact_table);
  mret (load_file fact_file (FactBlob new_fact_table) st).

End FactTable.

(** ** Step 5: the warehouse load *)

(** What [load_fact_to_postgres] can let escape: the errors of subscripting
    the XCom value, or an error of the engine. *)
Inductive py_error : Type :=
  | SubscriptTypeError     (* x[0] on None, a bool or a number *)
  | IndexError             (* x[0] on an empty list or string *)
  | KeyError               (* x[0] on a dict, whose keys are strings *)
  | EngineError (e : exn).

(** [x[0]] on an XCom value as it is deserialized. *)
Definition subscript0 (x : json) : py_error + json :=
  match x with
  | JArr (a :: _) => inr a
  | JArr [] => inl IndexError
  | JStr (String c _) => inr (JStr (String c ""))
  | JStr EmptyString => inl IndexError
  | JObj _ => inl KeyError
  | JNull | JBool _ | JInt _ | JReal _ => inl SubscriptTypeError
  end.

(** The tables of the warehouse, by schema-qualified name. *)
Abbreviation warehouse := (gmap string blob).

Definition fact_games_table : string := "chess_dw.fact_games".

(** [SELECT * FROM '<name>.parquet']: whatever table the blob holds. *)
Definition read_parquet (st : store) (name : string) : result blob :=
  match st !! name with
  | Some (JsonBlob _) | None => Raise IOError
  | Some b => Ok b
  end.

(** [load_fact_to_postgres]: [xcom] is what [ti.xcom_pull] returns for the
    task [get_last_updated_date]; its element [0][0] is taken before anything
    else and only logged.  [to_sql(..., if_exists="replace")] replaces the
    table. *)
Definition load_fact_to_postgres (xcom : json) (st : store) (wh : warehouse)
  : py_error + warehouse :=
  match subscript0 xcom with
  | inl e => inl e
  | inr row =>
      match subscript0 row with
      | inl e => inl e
      | inr last_updated_date =>
          match read_parquet st fact_file with
          | Raise e => inl (EngineError e)
          | Ok fact => inr (<[fact_games_table := fact]> wh)
          end
      end
  end.

(** ** Sample data *)

(** One bracket-tagged line of a notation blob. *)
Definition pgn_tag (name value : string) : string :=
  "[" +:+ name +:+ " " +:+ String dquote value
  +:+ String dquote ("]" +:+ String newline "").

Definition sample_moves : string :=
  "1. e4 {[%clk 0:09:59.9]} 1... e5 {[%clk 0:09:58]} 2. Nf3 {[%clk 0:09:57]} "
  +:+ "2... Nc6 {[%clk 0:09:50]} 3. Bc4 {[%clk 0:09:40]} 1-0".

(** A game that starts at 23:58:00 on 2024-01-31 and ends at 00:03:00 on
    the next day. *)
Definition sample_pgn : string :=
  pgn_tag "Event" "Live Chess" +:+ pgn_tag "Site" "Chess.com" +:+
  pgn_tag "Date" "2024.01.31" +:+ pgn_tag "White" "Rhythmbear1" +:+
  pgn_tag "Black" "opponent" +:+ pgn_tag "Result" "1-0" +:+
  pgn_tag "ECO" "C50" +:+
  pgn_tag "ECOUrl" "https://www.chess.com/openings/Italian-Game" +:+
  pgn_tag "StartTime" "23:58:00" +:+ pgn_tag "EndDate" "2024.02.01" +:+
  pgn_tag "EndTime" "00:03:00" +:+ String newline sample_moves.

(** The same blob without its Date line. *)
Definition sample_pgn_without_date : string :=
  pgn_tag "Event" "Live Chess" +:+ pgn_tag "Site" "Chess.com" +:+
  pgn_tag "White" "Rhythmbear1" +:+
  pgn_tag "Black" "opponent" +:+ pgn_tag "Result" "1-0" +:+
  pgn_tag "ECO" "C50" +:+
  pgn_tag "ECOUrl" "https://www.chess.com/openings/Italian-Game" +:+
  pgn_tag "StartTime" "23:58:00" +:+ pgn_tag "EndDate" "2024.02.01" +:+
  pgn_tag "EndTime" "00:03:00" +:+ String newline sample_moves.

Definition sample_game (url pgn : string) : Raw.game :=
  {| Raw.url := Some url;
     Raw.time_control := Some "600";
     Raw.rated := Some true;
     Raw.time_class := Some "rapid";
     Raw.rules := Some "chess";
     Raw.white := Raw.Player (Some 1500) (Some "win");
     Raw.black := Raw.Player (Some 1400) (Some "checkmated");
     Raw.pgn := pgn |}.

Definition game_1 : Raw.game :=
  sample_game "https://www.chess.com/game/live/1" sample_pgn.
Definition game_2 : Raw.game :=
  sample_game "https://www.chess.com/game/live/2" sample_pgn.
Definition game_without_date : Raw.game :=
  sample_game "https://www.chess.com/game/live/3" sample_pgn_without_date.

(** Stand-ins for the registered functions, for running the pipeline on
    sample data: every text function is the identity and ties go to the
    earlier row. *)
Definition sample_env : env :=
  {| format_time_control := fun x => x;
     get_pgn_depth := fun _ => None;
     extract_opening_name := fun x => x;
     get_opening_family := fun x => x;
     get_opening_variation := fun _ => None;
     read_json := fun _ => Ok [game_1; game_2];
     tie_break := fun _ _ => false |}.

(** A service that answers every request with the same response. *)
Definition always (code : Z) (body : option json) : string → http_outcome :=
  fun _ => Response code body.

Definition game_json (url : string) : json := JObj [("url", JStr url)].

(** A store whose bronze blob for 2024-01 already holds one game. *)
Definition store_with_bronze : store :=
  {[ "bronze/2024-01-games.json" :=
       JsonBlob (JArr [game_json "https://www.chess.com/game/live/1"]) ]}.

(** What the SELECT of the transform yields for [game_1]. *)
Definition cross_midnight_row : Silver.row Calendar.time :=
  {| Silver.game_url := Some "https://www.chess.com/game/live/1";
     Silver.time_control := Some "600";
     Silver.rated := Some true;
     Silver.time_class := Some "rapid";
     Silver.rules := Some "chess";
     Silver.white_rating := Some 1500;
     Silver.white_result := Some "win";
     Silver.black_rating := Some 1400;
     Silver.black_result := Some "checkmated";
     Silver.pgn_event := Some "Live Chess";
     Silver.pgn_site := Some "Chess.com";
     Silver.game_date := Some (Calendar.Date 2024 1 31);
     Silver.pgn_white_user := Some "Rhythmbear1";
     Silver.pgn_black_user := Some "opponent";
     Silver.pgn_result := Some "1-0";
     Silver.pgn_current_position := Some "";
     Silver.pgn_timezone := Some "";
     Silver.pgn_eco := Some "C50";
     Silver.pgn_eco_url := Some "https://www.chess.com/openings/Italian-Game";
     Silver.start_time := Some (Calendar.Time 23 58 0);
     Silver.end_time := Some (Calendar.Time 0 3 0);
     Silver.end_game_date := Some (Calendar.Date 2024 2 1);
     Silver.pgn_raw := Some "e4 e5 Nf3 Nc6 Bc4";
     Silver.pgn_trans := Some "1. e4 e5 2. Nf3 Nc6 3. Bc4" |}.

(** Registered functions whose JSON reader yields two games, the second
    without a Date line. *)
Definition env_with_undated_game : env :=
  {| format_time_control := fun x => x;
     get_pgn_depth := fun _ => None;
     extract_opening_name := fun x => x;
     get_opening_family := fun x => x;
     get_opening_variation := fun _ => None;
     read_json := fun _ => Ok [game_1; game_without_date];
     tie_break := fun _ _ => false |}.

(** The silver table of the batch [game_1], [game_2]. *)
Definition silver_batch : Silver.t :=
  match traverse transform_game [game_1; game_2] with
  | Ok t => t
  | Raise _ => []
  end.

Definition silver_file : string := "silver/fact-2024-01-games.parquet".

(** The store before the first gold run: the silver table of the batch and
    no gold blob yet. *)
Definition first_run_store : store := {[ silver_file := SilverBlob silver_batch ]}.

(** The gold tasks of one run, the four dimensions before the fact table
    (the order section 4.5 of the spec gives; the DAG file is not among the
    sources). *)
Definition gold_run (E : env) (filename : string) (exec_date : Z) (st : store)
  : result store :=
  st ← load_dim_openings E filename st;
  st ← load_dim_date filename st;
  st ← load_dim_time_control E filename st;
  st ← load_dim_results filename st;
  load_fact_table E filename exec_date st.

(** A store before a first fact load whose silver table lists one game
    twice; the dimension tables exist and are empty. *)
Definition duplicate_batch_store : store :=
  {[ silver_file := SilverBlob (take 1 silver_batch ++ take 1 silver_batch);
     dim_date_file := DimDateBlob [];
     dim_openings_file := DimOpeningsBlob [];
     dim_results_file := DimResultsBlob [];
     dim_time_control_file := DimTimeControlBlob [] ]}.

(** Two fact rows of one game, from runs at times 100 and 200. *)
Definition fact_at (exec_date : Z) : Fact.row :=
  fct_row sample_env exec_date
    (Silver.set_times cross_midnight_row (Some 1706745480) (Some 1706745780)).

(** The common shape of the merge queries of the openings, date and
    time-control dimensions: [raw_key] is the column the WHERE clause tests,
    [select] the select list, [key] the key column of the dimension. *)
Definition merge_shape {S R K : Type} `{EqDecision R} `{EqDecision K}
    (raw_key : S → option K) (select : S → R) (key : R → option K)
    (source : list S) (destination : list R) : list R :=
  Sql.union
    (Sql.distinct
       (select <$>
          Sql.where_ (fun s => Sql.not_in (raw_key s) (key <$> destination))
            source))
    destination.

(** The result codes a batch carries. *)
Definition result_codes (source : Silver.t) : list (option string) :=
  (Silver.white_result <$> source) ++ (Silver.black_result <$> source).

(** A store whose results dimension holds the single code "win", with the
    silver table of the sample batch, whose games end in "win" and
    "checkmated". *)
Definition store_with_results : store :=
  {[ silver_file := SilverBlob silver_batch;
     dim_results_file := DimResultsBlob [result_row "win" "Win" "Win"] ]}.


(** A game of the same time control that the source classes as blitz. *)
Definition game_3 : Raw.game :=
  {| Raw.url := Some "https://www.chess.com/game/live/3";
     Raw.time_control := Some "600";
     Raw.rated := Some true;
     Raw.time_class := Some "blitz";
     Raw.rules := Some "chess";
     Raw.white := Raw.Player (Some 1500) (Some "win");
     Raw.black := Raw.Player (Some 1400) (Some "checkmated");
     Raw.pgn := sample_pgn |}.

Definition silver_game_3 : Silver.t :=
  match traverse transform_game [game_3] with
  | Ok t => t
  | Raise _ => []
  end.

(** Stand-ins whose formatter gives the code "600" the label "10 min". *)
Definition labelling_env : env :=
  {| format_time_control :=
       fun x => if decide (x = Some "600") then Some "10 min" else x;
     get_pgn_depth := fun _ => None;
     extract_opening_name := fun x => x;
     get_opening_family := fun x => x;
     get_opening_variation := fun _ => None;
     read_json := fun _ => Ok [game_1; game_2];
     tie_break := fun _ _ => false |}.

(** What a successful fetch leaves: under the bronze name of the batch, the
    games member of a 200 response, or the empty list when the key is
    missing or the status is not 200. *)
Definition landed_games (outcome : http_outcome) : json :=
  match outcome with
  | Response 200 (Some (JObj members)) => default (JArr []) (assoc "games" members)
  | _ => JArr []
  end.

(** A game whose dates lie outside what pandas holds as a timestamp. *)
Definition game_of_year_3000 : Raw.game :=
  sample_game "https://www.chess.com/game/live/4"
    (pgn_tag "Date" "3000.01.31" +:+ pgn_tag "StartTime" "23:58:00" +:+
     pgn_tag "EndDate" "3000.02.01" +:+ pgn_tag "EndTime" "00:03:00").

Definition env_reading (games : list Raw.game) : env :=
  {| format_time_control := fun x => x;
     get_pgn_depth := fun _ => None;
     extract_opening_name := fun x => x;
     get_opening_family := fun x => x;
     get_opening_variation := fun _ => None;
     read_json := fun _ => Ok games;
     tie_break := fun _ _ => false |}.

(** A silver row without time control, and the row it gives the
    time-control dimension when the formatter maps NULL to NULL. *)
Definition silver_row_without_time_control : Silver.row Z :=
  {| Silver.game_url := Some "https://www.chess.com/game/live/5";
     Silver.time_control := None;
     Silver.rated := None;
     Silver.time_class := None;
     Silver.rules := None;
     Silver.white_rating := None;
     Silver.white_result := None;
     Silver.black_rating := None;
     Silver.black_result := None;
     Silver.pgn_event := None;
     Silver.pgn_site := None;
     Silver.game_date := None;
     Silver.pgn_white_user := None;
     Silver.pgn_black_user := None;
     Silver.pgn_result := None;
     Silver.pgn_current_position := None;
     Silver.pgn_timezone := None;
     Silver.pgn_eco := None;
     Silver.pgn_eco_url := None;
     Silver.start_time := None;
     Silver.end_time := None;
     Silver.end_game_date := None;
     Silver.pgn_raw := None;
     Silver.pgn_trans := None |}.

(** Case analysis on a month number known to lie between 1 and 12. *)
Ltac each_month m :=
  let H := fresh "Hmonth" in
  assert (H : m = 1 ∨ m = 2 ∨ m = 3 ∨ m = 4 ∨ m = 5 ∨ m = 6 ∨ m = 7 ∨ m = 8
              ∨ m = 9 ∨ m = 10 ∨ m = 11 ∨ m = 12) by lia;
  repeat (destruct H as [-> | H]); try subst m.

(** Lookups in a store built by inserts under different blob names. *)
Ltac distinct_names :=
  let H := fresh in intros H; vm_compute in H; discriminate H.

Ltac lookup_store :=
  repeat (rewrite lookup_insert_ne by distinct_names);
  first [apply lookup_insert_eq | reflexivity].

(** The four STRPTIME calls of the SELECT, in the order of its bindings. *)
Ltac split_select_silver H1 H2 H3 H4 :=
  unfold select_silver;
  destruct (Strptime.strptime_date (Text.replace "." "/" (tag "Date" _)))
    eqn:H1; simpl;
  [destruct (Strptime.strptime_time (tag "StartTime" _)) eqn:H2; simpl;
   [destruct (Strptime.strptime_time (tag "EndTime" _)) eqn:H3; simpl;
    [destruct (Strptime.strptime_date (Text.replace "." "/" (tag "EndDate" _)))
       eqn:H4; simpl|]|]|].

(** ** Properties of the fetch step *)

Section Fetch.
Variable api : string → http_outcome.
Variables (username : string) (year month : Z) (st : store).

Lemma extract_non_200 code body :
  api (games_url username year month) = Response code body →
  code ≠ 200 →
  extract_and_load_chess_data api username year month st
  = Ok (PyBool true,
        <[bronze_blob_name year month := JsonBlob (JArr [])]> st).
Proof.
  intros Hresp Hcode. unfold extract_and_load_chess_data, requests_get.
  rewrite Hresp. simpl.
  destruct (Z.eqb_spec code 200) as [->|_]; [done|reflexivity].
Qed.

Lemma extract_200 members games n :
  api (games_url username year month) = Response 200 (Some (JObj members)) →
  default (JArr []) (assoc "games" members) = games →
  py_len games = Ok n →
  extract_and_load_chess_data api username year month st
  = Ok (PyBool true, <[bronze_blob_name year month := JsonBlob games]> st).
Proof.
  intros Hresp Hgames Hlen. unfold extract_and_load_chess_data, requests_get.
  rewrite Hresp. simpl. rewrite Hgames, Hlen. reflexivity.
Qed.

Lemma extract_value v st' :
  extract_and_load_chess_data api username year month st = Ok (v, st') →
  v = PyBool true.
Proof.
  unfold extract_and_load_chess_data.
  destruct (requests_get api _) as [[code body]|]; simpl; [|done].
  destruct (code =? 200); simpl.
  - destruct (response_json body) as [data|]; simpl; [|done].
    destruct (dict_get data _ _) as [games|]; simpl; [|done].
    destruct (py_len games); simpl; [|done].
    by intros [= <- _].
  - by intros [= <- _].
Qed.
End Fetch.

(** C4, as stated, fails: the service answers 404 for January 2024 while the
    bronze blob of that batch holds one game.  The step does not raise; it
    returns [True] and the blob now holds the empty list. *)
Lemma failed_fetch_overwrites_bronze :
  store_with_bronze !! "bronze/2024-01-games.json"
  = Some (JsonBlob (JArr [game_json "https://www.chess.com/game/live/1"]))
  ∧ ∃ st',
      extract_and_load_chess_data (always 404 None) "Rhythmbear1" 2024 1
        store_with_bronze = Ok (PyBool true, st')
      ∧ st' !! "bronze/2024-01-games.json" = Some (JsonBlob (JArr [])).
Proof.
  split; [reflexivity|].
  eexists. split.
  - apply extract_non_200 with (code := 404) (body := None); [reflexivity|lia].
  - reflexivity.
Qed.

(** C4 (as amended): when the service answers with any status code other
    than 200, the fetch-and-load step raises nothing: it takes the game list
    to be empty, writes the empty list over the bronze blob of that
    (year, month) batch and returns [True]. *)
Theorem failed_fetch_is_landed_as_empty
    (api : string → http_outcome) (username : string) (year month : Z)
    (st : store) (code : Z) (body : option json) :
  api (games_url username year month) = Response code body →
  code ≠ 200 →
  extract_and_load_chess_data api username year month st
  = Ok (PyBool true, <[bronze_blob_name year month := JsonBlob (JArr [])]> st).
Proof. apply extract_non_200. Qed.

Lemma failed_fetch_is_landed_as_empty_witness :
  extract_and_load_chess_data (always 503 None) "Rhythmbear1" 2024 1 ∅
  = Ok (PyBool true, <[bronze_blob_name 2024 1 := JsonBlob (JArr [])]> ∅).
Proof.
  apply (failed_fetch_is_landed_as_empty (always 503 None) "Rhythmbear1" 2024 1
           ∅ 503 None); [reflexivity|lia].
Defined.

(** C10: whatever the user name, year, month, store and remote service, a
    call that returns at all returns [True], never a list of games; and it
    does return, with [True], for every response whose status is not 200 and
    for every 200 response whose body is an object with a sized (or absent)
    ["games"] member, however many games that holds. *)
Theorem extract_returns_True
    (api : string → http_outcome) (username : string) (year month : Z)
    (st : store) :
  (∀ v st',
     extract_and_load_chess_data api username year month st = Ok (v, st') →
     v = PyBool true)
  ∧ (∀ code body,
       api (games_url username year month) = Response code body →
       code ≠ 200 →
       ∃ st', extract_and_load_chess_data api username year month st
              = Ok (PyBool true, st'))
  ∧ (∀ members n,
       api (games_url username year month) = Response 200 (Some (JObj members)) →
       py_len (default (JArr []) (assoc "games" members)) = Ok n →
       ∃ st', extract_and_load_chess_data api username year month st
              = Ok (PyBool true, st')).
Proof.
  split; [|split].
  - apply extract_value.
  - intros code body Hresp Hcode. eexists. by eapply extract_non_200.
  - intros members n Hresp Hlen. eexists. by eapply extract_200.
Qed.

Lemma extract_returns_True_witness :
  ∃ st',
    extract_and_load_chess_data
      (always 200 (Some (JObj [("games", JArr [game_json "a"; game_json "b"])])))
      "Rhythmbear1" 2024 1 ∅
    = Ok (PyBool true, st').
Proof.
  apply (proj2 (proj2 (extract_returns_True
           (always 200 (Some (JObj [("games", JArr [game_json "a"; game_json "b"])])))
           "Rhythmbear1" 2024 1 ∅))
           [("games", JArr [game_json "a"; game_json "b"])] 2%nat);
    reflexivity.
Defined.

(** ** Properties of the text functions *)

Module TextFacts.
Import Text.

Lemma app_nil_l (s : string) : "" +:+ s = s.
Proof. reflexivity. Qed.

Lemma app_cons (c : ascii) (s1 s2 : string) :
  String c s1 +:+ s2 = String c (s1 +:+ s2).
Proof. reflexivity. Qed.

Lemma app_assoc (s1 s2 s3 : string) : (s1 +:+ s2) +:+ s3 = s1 +:+ (s2 +:+ s3).
Proof.
  induction s1 as [|c s1 IH]; [done|].
  rewrite !app_cons. by rewrite IH.
Qed.

Lemma starts_with_Some p s rest : starts_with p s = Some rest → s = p +:+ rest.
Proof.
  revert s. induction p as [|a p IH]; intros [|b s]; simpl; try done.
  - by intros [= <-].
  - by intros [= <-].
  - destruct (decide (a = b)) as [->|]; [|done].
    intros H%IH. by rewrite app_cons, H.
Qed.

Lemma starts_with_app p rest : starts_with p (p +:+ rest) = Some rest.
Proof.
  induction p as [|a p IH]; [by destruct rest|].
  rewrite app_cons. simpl. by rewrite decide_True.
Qed.

Lemma contains_occurs p s : occurs p s → contains p s = true.
Proof.
  intros (a & b & ->). induction a as [|c a IH].
  - rewrite app_nil_l. destruct (p +:+ b) eqn:Heq; simpl;
      rewrite <- ?Heq, starts_with_app; done.
  - rewrite app_cons. simpl. rewrite IH. by destruct (starts_with _ _).
Qed.

Lemma not_contains_not_occurs p s : contains p s = false → ¬ occurs p s.
Proof. intros Hc Ho%contains_occurs. congruence. Qed.

Lemma occurs_cons p c s : occurs p s → occurs p (String c s).
Proof. intros (a & b & ->). by exists (String c a), b. Qed.

(** A pattern whose literal prefix is nowhere in the text has no match. *)
Lemma regexp_find_absent pre suf s :
  ¬ occurs pre s → regexp_find pre suf s = None.
Proof.
  induction s as [|c s IH]; intros Hno.
  - simpl. unfold match_here.
    destruct (starts_with pre "") as [rest|] eqn:Hpre; [|done].
    destruct Hno. exists "", rest. rewrite app_nil_l.
      by apply starts_with_Some.
  - simpl. unfold match_here.
    destruct (starts_with pre (String c s)) as [rest|] eqn:Hpre.
    + destruct Hno. exists "", rest. rewrite app_nil_l.
      by apply starts_with_Some.
    + simpl. apply IH. intros Hocc. by apply Hno, occurs_cons.
Qed.

Lemma regexp_extract_absent pre suf s :
  ¬ occurs pre s → regexp_extract pre suf s = "".
Proof. intros H. unfold regexp_extract. by rewrite regexp_find_absent. Qed.

Lemma join_pair sep a b : join sep [a; b] = a +:+ sep +:+ b.
Proof. reflexivity. Qed.

Lemma join_cons sep a b l : join sep (a :: b :: l) = a +:+ sep +:+ join sep (b :: l).
Proof. reflexivity. Qed.
Lemma starts_with_length p s rest :
  starts_with p s = Some rest →
  String.length s = (String.length p + String.length rest)%nat.
Proof.
  intros ->%starts_with_Some. induction p as [|a p IH]; [done|].
  rewrite app_cons. simpl. by rewrite IH.
Qed.

Lemma lazy_until_length suf s cap rest :
  lazy_until suf s = Some (cap, rest) →
  String.length s
  = (String.length cap + String.length suf + String.length rest)%nat.
Proof.
  revert cap. induction s as [|c s IH]; intros cap; simpl.
  - destruct (starts_with suf "") as [r|] eqn:Hs; [|done].
    intros [= <- <-]. by apply starts_with_length in Hs.
  - destruct (starts_with suf (String c s)) as [r|] eqn:Hs.
    + intros [= <- <-]. by apply starts_with_length in Hs.
    + case_decide; [done|].
      destruct (lazy_until suf s) as [[cap' rest']|] eqn:Hl; [|done].
      simpl. intros [= <- <-]. simpl. by rewrite (IH cap').
Qed.

(** What is left after a match is shorter than the text by at least the
    two literals. *)
Lemma regexp_find_length pre suf s cap rest :
  regexp_find pre suf s = Some (cap, rest) →
  (String.length pre + String.length suf + String.length rest
   ≤ String.length s)%nat.
Proof.
  induction s as [|c s IH]; simpl; unfold match_here.
  - destruct (starts_with pre "") as [r|] eqn:Hp; simpl; [|done].
    destruct (lazy_until suf r) as [[cap' rest']|] eqn:Hl; [|done].
    intros [= <- <-].
    apply starts_with_length in Hp. apply lazy_until_length in Hl.
    simpl in *. lia.
  - destruct (starts_with pre (String c s)) as [r|] eqn:Hp; simpl.
    + destruct (lazy_until suf r) as [[cap' rest']|] eqn:Hl.
      * intros [= <- <-].
        apply starts_with_length in Hp. apply lazy_until_length in Hl.
        simpl in *. lia.
      * intros H%IH. lia.
    + intros H%IH. lia.
Qed.

(** The fuel of [regexp_extract_all] is never used up: more fuel finds the
    same matches. *)
Lemma regexp_extract_all_fuel pre suf :
  pre ≠ "" →
  ∀ (n m : nat) (s : string),
    (String.length s < n)%nat → (String.length s < m)%nat →
    regexp_extract_all_go n pre suf s = regexp_extract_all_go m pre suf s.
Proof.
  intros Hpre. induction n as [|n IH]; intros m s Hn Hm; [lia|].
  destruct m as [|m]; [lia|]. simpl.
  destruct (regexp_find pre suf s) as [[cap rest]|] eqn:Hf; [|done].
  f_equal. apply regexp_find_length in Hf.
  assert (0 < String.length pre)%nat by (destruct pre; [done|simpl; lia]).
  apply IH; lia.
Qed.

End TextFacts.

(** ** Properties of the move numbering *)

(** Induction over a token list two tokens at a time. *)
Lemma pair_induction (P : list string → Prop) :
  P [] → (∀ w, P [w]) → (∀ w b rest, P rest → P (w :: b :: rest)) →
  ∀ tokens, P tokens.
Proof.
  intros Hnil Hone Hstep.
  assert (H : ∀ tokens, P tokens ∧ ∀ w, P (w :: tokens)).
  { induction tokens as [|b rest [IH1 IH2]]; split; auto. }
  intros tokens. apply H.
Qed.

Lemma number_moves_length (tokens : list string) :
  ∀ n, length (number_moves n tokens) = Nat.div2 (S (length tokens)).
Proof.
  induction tokens as [|w|w b rest IH] using pair_induction; intros n;
    [done..|].
  cbn [number_moves length]. by rewrite IH.
Qed.

Lemma number_moves_lookup (tokens : list string) :
  ∀ (n i : nat), (2 * i < length tokens)%nat →
    number_moves n tokens !! i
    = Some (pretty (n + i)%nat +:+ ". "
            +:+ Text.join " " (take 2 (drop (2 * i) tokens))).
Proof.
  induction tokens as [|w|w b rest IH] using pair_induction; intros n i Hi.
  - simpl in Hi. lia.
  - simpl in Hi. assert (i = 0%nat) as -> by lia.
    simpl. by rewrite Nat.add_0_r.
  - destruct i as [|i].
    + simpl. by rewrite Nat.add_0_r.
    + cbn [number_moves]. rewrite lookup_cons_ne_0 by done. simpl pred.
      rewrite IH by (simpl in *; lia).
      replace (2 * S i)%nat with (S (S (2 * i))) by lia.
      by replace (n + S i)%nat with (S n + i)%nat by lia.
Qed.

(** C6: the move numbering is a function of the token list alone.  It puts
    the tokens in pairs (white, black), the i-th pair behind the number
    i + 1 counted from 1, a last unpaired token being a white move, and
    joins the numbered pairs with blanks; for tokens [a,b,c,d,e] this is
    the string "1. a b 2. c d 3. e". *)
Theorem add_move_numbers_interleaves :
  (∀ a b c d e : string,
     add_move_numbers [a; b; c; d; e]
     = "1. " +:+ a +:+ " " +:+ b +:+ " 2. " +:+ c +:+ " " +:+ d +:+ " 3. " +:+ e)
  ∧ (∀ tokens : list string,
       add_move_numbers tokens = Text.join " " (number_moves 1 tokens)
       ∧ length (number_moves 1 tokens) = Nat.div2 (S (length tokens))
       ∧ ∀ i : nat, (2 * i < length tokens)%nat →
           number_moves 1 tokens !! i
           = Some (pretty (S i) +:+ ". "
                   +:+ Text.join " " (take 2 (drop (2 * i) tokens)))).
Proof.
  split.
  - intros a b c d e. unfold add_move_numbers. cbn [number_moves].
    rewrite !TextFacts.join_cons. cbn [Text.join].
    change (pretty 1%nat) with "1". change (pretty 2%nat) with "2".
    change (pretty 3%nat) with "3".
    rewrite !TextFacts.app_assoc. reflexivity.
  - intros tokens. split; [reflexivity|]. split.
    + apply number_moves_length.
    + intros i Hi. by rewrite number_moves_lookup.
Qed.

Lemma add_move_numbers_interleaves_witness :
  number_moves 1 ["e4"; "e5"; "Nf3"] !! 1%nat = Some "2. Nf3".
Proof.
  apply (proj2 (proj2 (proj2 add_move_numbers_interleaves ["e4"; "e5"; "Nf3"]))
           1%nat).
  simpl. lia.
Defined.

(** ** Properties of dates and timestamps *)

Module CalendarFacts.
Import Calendar.

Lemma days_before_year_succ y :
  days_before_year (y + 1)
  = days_before_year y + 365 + (if is_leap y then 1 else 0).
Proof.
  unfold days_before_year, is_leap.
  replace (y + 1 - 1) with y by lia.
  destruct (Z.eqb_spec (y mod 4) 0), (Z.eqb_spec (y mod 100) 0),
    (Z.eqb_spec (y mod 400) 0);
    cbn [andb orb negb]; Z.div_mod_to_equations; lia.
Qed.

Lemma valid_date_bounds d :
  valid_date d = true →
  1 ≤ month d ≤ 12 ∧ 1 ≤ day d ≤ days_in_month (year d) (month d).
Proof. unfold valid_date. rewrite !andb_true_iff. lia. Qed.

(** The day of the year lies between 1 and the length of the year. *)
Lemma day_of_year_range y m dd :
  1 ≤ m ≤ 12 → 1 ≤ dd ≤ days_in_month y m →
  1 ≤ days_before_month y m + dd ≤ 365 + (if is_leap y then 1 else 0).
Proof.
  intros Hm Hd. unfold days_before_month, days_in_month in *.
  each_month m; simpl in *; destruct (is_leap y); simpl in *; lia.
Qed.

(** The day after a calendar date is one day later on the day count. *)
Lemma epoch_days_next_day d :
  valid_date d = true → epoch_days (next_day d) = epoch_days d + 1.
Proof.
  intros [Hm Hd]%valid_date_bounds. destruct d as [y m dd]. simpl in Hm, Hd.
  unfold next_day, epoch_days. simpl.
  destruct (Z.ltb_spec dd (days_in_month y m)) as [Hlt|Hge]; simpl; [lia|].
  assert (dd = days_in_month y m) as -> by lia. clear Hd Hge.
  each_month m; simpl; rewrite ?days_before_year_succ;
    unfold days_before_month; simpl; destruct (is_leap y); simpl; lia.
Qed.

Lemma next_day_valid d : valid_date d = true → valid_date (next_day d) = true.
Proof.
  intros [Hm Hd]%valid_date_bounds. destruct d as [y m dd]. simpl in Hm, Hd.
  unfold next_day, valid_date. simpl.
  destruct (Z.ltb_spec dd (days_in_month y m)) as [Hlt|Hge]; simpl.
  - rewrite !andb_true_iff. lia.
  - destruct (Z.ltb_spec m 12) as [Hlt|Hge']; simpl; [|done].
    assert (1 ≤ days_in_month y (m + 1)).
    { clear Hd Hge. unfold days_in_month.
      each_month m; simpl; try destruct (is_leap y); lia. }
    rewrite !andb_true_iff. lia.
Qed.

(** The dates of the years 1678 to 2261 and the days after them lie inside
    the 64-bit nanosecond range, whatever the time of day. *)
Lemma epoch_days_range d :
  valid_date d = true → 1678 ≤ year d ≤ 2261 →
  -106650 ≤ epoch_days d ≤ 106650.
Proof.
  intros [Hm Hd]%valid_date_bounds Hy. destruct d as [y m dd].
  simpl in Hm, Hd, Hy.
  pose proof (day_of_year_range y m dd Hm Hd) as Hdoy.
  assert (Hleap : y = 2261 → is_leap y = false) by (by intros ->).
  unfold epoch_days, days_before_year. simpl.
  destruct (decide (y = 2261)) as [Heq|Hne].
  - rewrite (Hleap Heq) in Hdoy. Z.div_mod_to_equations. lia.
  - destruct (is_leap y); Z.div_mod_to_equations; lia.
Qed.

End CalendarFacts.

(** ** Properties of the parse step *)

Example select_silver_game_1 : select_silver game_1 = Ok cross_midnight_row.
Proof. vm_compute. reflexivity. Qed.

Example duration_of_game_1 :
  Fact.game_duration_secs <$> (fct_row sample_env 0 <$> transform_game game_1)
  = Ok (Some 300).
Proof. vm_compute. reflexivity. Qed.

Lemma to_datetime_in_range d t :
  Calendar.valid_date d = true → Calendar.valid_time t = true →
  -106651 ≤ Calendar.epoch_days d ≤ 106651 →
  to_datetime (Some d) (Some t) = Ok (Some (Calendar.timestamp_of d t)).
Proof.
  intros _ Ht Hd. unfold to_datetime.
  assert (0 ≤ Calendar.seconds_of_time t < 86400).
  { unfold Calendar.valid_time in Ht. rewrite !andb_true_iff in Ht.
    unfold Calendar.seconds_of_time. lia. }
  unfold Calendar.timestamp_of.
  destruct (Z.ltb_spec (- 2 ^ 63)
              ((Calendar.epoch_days d * 86400 + Calendar.seconds_of_time t) * 10 ^ 9));
    [|lia].
  destruct (Z.ltb_spec
              ((Calendar.epoch_days d * 86400 + Calendar.seconds_of_time t) * 10 ^ 9)
              (2 ^ 63)); [done|lia].
Qed.

(** C8: the start timestamp is rebuilt from [game_date] and [start_time],
    the end timestamp from [end_game_date] and [end_time].  So for a game
    that starts at 23:58:00 on a date D and ends at 00:03:00 on the day
    after D, the duration column of the fact row is 300 seconds.  (D ranges
    over the valid dates of the years pandas can hold as nanosecond
    timestamps whatever the time of day.) *)
Theorem cross_midnight_duration (E : env) (exec_date : Z)
    (q : Silver.row Calendar.time) (D : Calendar.date) :
  Calendar.valid_date D = true →
  1678 ≤ Calendar.year D ≤ 2261 →
  Silver.game_date q = Some D →
  Silver.start_time q = Some (Calendar.Time 23 58 0) →
  Silver.end_game_date q = Some (Calendar.next_day D) →
  Silver.end_time q = Some (Calendar.Time 0 3 0) →
  ∃ s : Silver.row Z,
    rebuild_timestamps q = Ok s
    ∧ Silver.start_time s
      = Some (Calendar.timestamp_of D (Calendar.Time 23 58 0))
    ∧ Silver.end_time s
      = Some (Calendar.timestamp_of (Calendar.next_day D) (Calendar.Time 0 3 0))
    ∧ Fact.game_duration_secs (fct_row E exec_date s) = Some 300.
Proof.
  intros Hv Hy Hgd Hst Hed Het.
  pose proof (CalendarFacts.epoch_days_range D Hv Hy) as Hr.
  pose proof (CalendarFacts.epoch_days_next_day D Hv) as Hn.
  pose proof (CalendarFacts.next_day_valid D Hv) as Hv'.
  unfold rebuild_timestamps. rewrite Hgd, Hst, Hed, Het.
  rewrite !to_datetime_in_range by (done || lia). simpl.
  eexists. split; [reflexivity|]. simpl. split; [done|]. split; [done|].
  unfold duration_secs, Calendar.date_diff_seconds, Calendar.timestamp_of.
  rewrite Hn. f_equal. unfold Calendar.seconds_of_time. simpl. lia.
Qed.

Lemma cross_midnight_duration_witness :
  ∃ s : Silver.row Z,
    rebuild_timestamps cross_midnight_row = Ok s
    ∧ Silver.start_time s = Some 1706745480
    ∧ Silver.end_time s = Some 1706745780
    ∧ Fact.game_duration_secs (fct_row sample_env 0 s) = Some 300.
Proof.
  apply (cross_midnight_duration sample_env 0 cross_midnight_row
           (Calendar.Date 2024 1 31)); (reflexivity || (simpl; lia)).
Defined.

Lemma strptime_date_error s e :
  Strptime.strptime_date s = Raise e → e = InvalidInputError.
Proof.
  unfold Strptime.strptime_date.
  destruct (Strptime.three_numbers _ _ _ _ s) as [[[y m] d]|]; [|congruence].
  destruct (Calendar.valid_date _); congruence.
Qed.

Lemma strptime_time_error s e :
  Strptime.strptime_time s = Raise e → e = InvalidInputError.
Proof.
  unfold Strptime.strptime_time.
  destruct (Strptime.three_numbers _ _ _ _ s) as [[[h m] sec]|]; [|congruence].
  destruct (Calendar.valid_time _); congruence.
Qed.

Lemma select_silver_error g e : select_silver g = Raise e → e = InvalidInputError.
Proof.
  split_select_silver H1 H2 H3 H4; intros; simplify_eq;
    eauto using strptime_date_error, strptime_time_error.
Qed.

Lemma tag_absent name pgn :
  ¬ Text.occurs (tag_opening name) pgn → tag name pgn = "".
Proof. apply TextFacts.regexp_extract_absent. Qed.

(** STRPTIME on the empty extraction of a missing tag. *)
Lemma select_silver_missing_strptime_tag g name :
  name ∈ strptime_tags →
  tag name (Raw.pgn g) = "" →
  select_silver g = Raise InvalidInputError.
Proof.
  intros Hname Htag.
  destruct (select_silver g) as [q|e] eqn:Hsel;
    [|f_equal; by eapply select_silver_error].
  exfalso. revert Hsel.
  split_select_silver H1 H2 H3 H4; try done.
  intros _. unfold strptime_tags in Hname.
  repeat (apply elem_of_cons in Hname as [->|Hname]);
    [rewrite Htag in H1|rewrite Htag in H2|rewrite Htag in H3
    |rewrite Htag in H4|by apply elem_of_nil in Hname]; discriminate.
Qed.

Lemma select_silver_plain_column g q name
    (col : Silver.row Calendar.time → option string) :
  select_silver g = Ok q → plain_column name = Some col →
  col q = Some (tag name (Raw.pgn g)).
Proof.
  split_select_silver H1 H2 H3 H4; try done.
  intros [= <-]. unfold plain_column.
  repeat (case_decide; [subst name; by intros [= <-]|]). done.
Qed.

Lemma traverse_raise {A B} (f : A → result B) (e : exn) (l : list A) x :
  x ∈ l → f x = Raise e → (∀ y e', f y = Raise e' → e' = e) →
  traverse f l = Raise e.
Proof.
  intros Hx Hfx Hall. induction l as [|y l IH]; [by apply elem_of_nil in Hx|].
  simpl. destruct (f y) as [b|e'] eqn:Hy; simpl.
  - apply elem_of_cons in Hx as [->|Hx]; [congruence|].
    by rewrite IH.
  - f_equal. by eapply Hall.
Qed.

(** C9, as stated, fails: [game_without_date] has every tag of the sample
    blob except Date.  The SELECT raises, and so does the transform of a
    batch that holds this game; no silver table is produced. *)
Lemma missing_date_tag_raises :
  ¬ Text.occurs (tag_opening "Date") (Raw.pgn game_without_date) ∧
  select_silver game_without_date = Raise InvalidInputError ∧
  transform_game game_without_date = Raise InvalidInputError ∧
  transform_json_to_fact_table env_with_undated_game 2024 1 store_with_bronze
  = Raise InvalidInputError.
Proof.
  split; [by apply TextFacts.not_contains_not_occurs|].
  by vm_compute.
Qed.

(** C9 (as amended): when a tag is absent from the notation blob of a game,
    its REGEXP_EXTRACT yields the empty string, not NULL, and raises
    nothing.  For the nine tags selected as text (Event, Site, White, Black,
    Result, CurrentPosition, Timezone, ECO, ECOUrl) the column of a
    transformed row is that empty string.  For the four tags passed to
    STRPTIME (Date, StartTime, EndTime, EndDate) the empty string does not
    parse: the SELECT raises, the game is not transformed, and the transform
    of any batch that holds the game raises as well. *)
Theorem absent_tag (g : Raw.game) (name : string) :
  ¬ Text.occurs (tag_opening name) (Raw.pgn g) →
  tag name (Raw.pgn g) = ""
  ∧ (∀ q col, select_silver g = Ok q → plain_column name = Some col →
              col q = Some "")
  ∧ (name ∈ strptime_tags →
     select_silver g = Raise InvalidInputError
     ∧ transform_game g = Raise InvalidInputError
     ∧ ∀ E year month st j games,
         st !! bronze_blob_name year month = Some (JsonBlob j) →
         read_json E j = Ok games → g ∈ games →
         transform_json_to_fact_table E year month st = Raise InvalidInputError).
Proof.
  intros Habs%tag_absent. split; [done|]. split.
  - intros q col Hq Hcol. rewrite <- Habs. by eapply select_silver_plain_column.
  - intros Hname.
    pose proof (select_silver_missing_strptime_tag g name Hname Habs) as Hsel.
    split; [done|]. split.
    + unfold transform_game. by rewrite Hsel.
    + intros E year month st j games Hst Hj Hg.
      unfold transform_json_to_fact_table. rewrite Hst, Hj. simpl.
      rewrite (traverse_raise select_silver InvalidInputError games g);
        eauto using select_silver_error.
Qed.

Lemma absent_tag_witness :
  tag "Date" (Raw.pgn game_without_date) = ""
  ∧ (∀ q col, select_silver game_without_date = Ok q →
              plain_column "Date" = Some col → col q = Some "")
  ∧ ("Date" ∈ strptime_tags →
     select_silver game_without_date = Raise InvalidInputError
     ∧ transform_game game_without_date = Raise InvalidInputError
     ∧ ∀ E year month st j games,
         st !! bronze_blob_name year month = Some (JsonBlob j) →
         read_json E j = Ok games → game_without_date ∈ games →
         transform_json_to_fact_table E year month st = Raise InvalidInputError).
Proof.
  apply (absent_tag game_without_date "Date").
  apply TextFacts.not_contains_not_occurs. reflexivity.
Defined.

(** ** Properties of the relational operators *)

Module SqlFacts.

Lemma elem_of_where {A} (c : A → option bool) (t : list A) (r : A) :
  r ∈ Sql.where_ c t ↔ r ∈ t ∧ c r = Some true.
Proof.
  unfold Sql.where_. rewrite !list_elem_of_In, filter_In.
  unfold Sql.is_true. destruct (c r) as [[]|]; intuition congruence.
Qed.

Lemma where_nil {A} (c : A → option bool) (t : list A) :
  (∀ r, r ∈ t → c r ≠ Some true) → Sql.where_ c t = [].
Proof.
  intros H. induction t as [|r t IH]; [done|].
  unfold Sql.where_ in *. simpl.
  assert (Sql.is_true (c r) = false) as ->.
  { specialize (H r (list_elem_of_here _ _)).
    unfold Sql.is_true. by destruct (c r) as [[]|]. }
  apply IH. intros r' Hr'. apply H. by apply list_elem_of_further.
Qed.

Lemma or_false (p q : option bool) :
  Sql.or p q = Some false ↔ p = Some false ∧ q = Some false.
Proof. destruct p as [[]|], q as [[]|]; simpl; intuition congruence. Qed.

Lemma eq_false {K} `{EqDecision K} (x y : option K) :
  Sql.eq x y = Some false ↔ ∃ a b, x = Some a ∧ y = Some b ∧ a ≠ b.
Proof.
  destruct x as [a|], y as [b|]; simpl;
    try (split; [done|by intros (? & ? & ? & ? & ?)]).
  case_bool_decide; (split; [intros ?|intros (? & ? & ? & ? & ?)]);
    simplify_eq; eauto.
Qed.

Lemma in_false {K} `{EqDecision K} (x : option K) (keys : list (option K)) :
  Sql.in_ x keys = Some false
  ↔ keys = [] ∨ (∃ k, x = Some k ∧ (Some k ∉ keys) ∧ (None ∉ keys)).
Proof.
  induction keys as [|k' keys IH]; [split; auto|].
  simpl. rewrite or_false, eq_false, IH. split.
  - intros [(a & b & -> & -> & Hab) Hkeys]. right. exists a.
    split; [done|]. rewrite !not_elem_of_cons.
    destruct Hkeys as [->|(k & [= <-] & ? & ?)].
    + split_and!; try done; try congruence; apply not_elem_of_nil.
    + split_and!; try done; congruence.
  - intros [?|(k & -> & Hk & Hnone)]; [done|].
    apply not_elem_of_cons in Hk as [Hne Hk].
    apply not_elem_of_cons in Hnone as [Hne' Hnone].
    destruct k' as [k'|]; [|done].
    split; [exists k, k'; split_and!; congruence|].
    right. eauto.
Qed.

(** [x NOT IN keys] is TRUE exactly when the list is empty, or [x] is not
    NULL, differs from every key, and no key is NULL. *)
Lemma not_in_true {K} `{EqDecision K} (x : option K) (keys : list (option K)) :
  Sql.not_in x keys = Some true
  ↔ keys = [] ∨ (∃ k, x = Some k ∧ (Some k ∉ keys) ∧ (None ∉ keys)).
Proof.
  rewrite <- in_false. unfold Sql.not_in, Sql.not.
  destruct (Sql.in_ x keys) as [[]|]; simpl; intuition congruence.
Qed.

Lemma elem_of_union {A} `{EqDecision A} (t1 t2 : list A) (r : A) :
  r ∈ Sql.union t1 t2 ↔ r ∈ t1 ∨ r ∈ t2.
Proof. unfold Sql.union. by rewrite elem_of_remove_dups, elem_of_app. Qed.

Lemma NoDup_union {A} `{EqDecision A} (t1 t2 : list A) : NoDup (Sql.union t1 t2).
Proof. apply NoDup_remove_dups. Qed.

Lemma remove_dups_NoDup {A} `{EqDecision A} (t : list A) :
  NoDup t → remove_dups t = t.
Proof.
  induction 1 as [|r t Hr _ IH]; [done|].
  simpl. destruct (decide_rel elem_of r t); [done|]. by rewrite IH.
Qed.

Lemma copies_pos {A B} (c : A → B → option bool) (a : A) (r : list B) :
  (1 ≤ Sql.copies c a r)%nat.
Proof. unfold Sql.copies. lia. Qed.

Lemma copies_no_match {A B} (c : A → B → option bool) (a : A) (r : list B) :
  (∀ b, b ∈ r → c a b ≠ Some true) → Sql.copies c a r = 1%nat.
Proof.
  intros H. unfold Sql.copies.
  change (List.filter _ r) with (Sql.where_ (c a) r).
  by rewrite where_nil.
Qed.

Lemma bind_replicate_one {A} (l : list A) :
  l = l ≫= (fun a => replicate 1 a).
Proof. induction l as [|a l IH]; [done|]. cbn. by f_equal. Qed.

Lemma replicate_bind {A} (m : A → nat) (k : nat) (a : A) :
  replicate k a ≫= (fun a => replicate (m a) a) = replicate (k * m a) a.
Proof.
  induction k as [|k IH]; [done|].
  change (replicate (S k) a) with (a :: replicate k a).
  rewrite bind_cons, IH. change (S k * m a)%nat with (m a + k * m a)%nat.
  by rewrite replicate_add.
Qed.

Lemma bind_replicate_replicate {A} (n m : A → nat) (l : list A) :
  (l ≫= (fun a => replicate (n a) a)) ≫= (fun a => replicate (m a) a)
  = l ≫= (fun a => replicate (n a * m a) a).
Proof.
  induction l as [|a l IH]; [done|].
  rewrite !bind_cons, bind_app, IH. by rewrite replicate_bind.
Qed.

(** A left join seen through a projection [π] of its left rows, when the ON
    clause reads only what [π] keeps. *)
Lemma left_join_project {X A B} (π : X → A) (c : A → B → option bool)
    (l : list X) (r : list B) :
  (fun x => π x.1) <$> Sql.left_join (fun x b => c (π x) b) l r
  = (π <$> l) ≫= (fun a => replicate (Sql.copies c a r) a).
Proof.
  induction l as [|x l IH]; [done|].
  unfold Sql.left_join in *. rewrite fmap_cons, !bind_cons, fmap_app, IH.
  f_equal. unfold Sql.copies.
  destruct (List.filter _ r) as [|b ms]; [done|].
  rewrite Nat.max_r by (simpl; lia).
  generalize (b :: ms). intros ms'.
  induction ms' as [|b' ms' IH']; [done|].
  rewrite !fmap_cons, IH'. done.
Qed.

Lemma join_step {X A B} (π : X → A) (c : A → B → option bool) (n : A → nat)
    (t : list A) (l : list X) (r : list B) :
  π <$> l = t ≫= (fun a => replicate (n a) a) →
  (fun x => π x.1) <$> Sql.left_join (fun x b => c (π x) b) l r
  = t ≫= (fun a => replicate (n a * Sql.copies c a r) a).
Proof.
  intros H. rewrite left_join_project, H. apply bind_replicate_replicate.
Qed.

End SqlFacts.

(** ** Properties of the fact step *)

Section FactFacts.
Variable E : env.

(** *** The joins *)

Lemma join_dimensions_fan_out fct dim_date dim_openings dim_results
    dim_time_control :
  join_dimensions fct dim_date dim_openings dim_results dim_time_control
  = fct ≫= (fun fact =>
              replicate (fan_out dim_date dim_openings dim_results
                           dim_time_control fact) fact).
Proof.
  unfold join_dimensions, fan_out.
  apply (SqlFacts.join_step (fun x => x.1.1.1.1) on_time_control).
  apply (SqlFacts.join_step (fun x => x.1.1.1) on_opponent_result).
  apply (SqlFacts.join_step (fun x => x.1.1) on_my_result).
  apply (SqlFacts.join_step (fun x => x.1) on_opening).
  rewrite (SqlFacts.left_join_project (fun x => x) on_date).
  by rewrite list_fmap_id.
Qed.

Lemma fan_out_pos dim_date dim_openings dim_results dim_time_control fact :
  (1 ≤ fan_out dim_date dim_openings dim_results dim_time_control fact)%nat.
Proof.
  unfold fan_out.
  pose proof (SqlFacts.copies_pos on_date fact dim_date).
  pose proof (SqlFacts.copies_pos on_opening fact dim_openings).
  pose proof (SqlFacts.copies_pos on_my_result fact dim_results).
  pose proof (SqlFacts.copies_pos on_opponent_result fact dim_results).
  pose proof (SqlFacts.copies_pos on_time_control fact dim_time_control).
  repeat apply Nat.mul_pos_pos; lia.
Qed.

Lemma elem_of_bind_replicate {A} (n : A → nat) (l : list A) (x : A) :
  x ∈ l ≫= (fun a => replicate (n a) a) ↔ x ∈ l ∧ n x ≠ 0%nat.
Proof.
  rewrite list_elem_of_bind. split.
  - intros (y & Hx & Hy). apply elem_of_replicate in Hx as [-> ?]. done.
  - intros [Hx Hn]. exists x. split; [|done]. by apply elem_of_replicate.
Qed.

Lemma elem_of_join_dimensions fct dim_date dim_openings dim_results
    dim_time_control fact :
  fact ∈ join_dimensions fct dim_date dim_openings dim_results dim_time_control
  ↔ fact ∈ fct.
Proof.
  rewrite join_dimensions_fan_out, elem_of_bind_replicate.
  pose proof (fan_out_pos dim_date dim_openings dim_results dim_time_control
                fact).
  split; [by intros [? _]|]. intros ?. split; [done|lia].
Qed.

(** *** The window *)

Lemma before_le r b :
  before E r b = true → Fact.last_updated b ≤ Fact.last_updated r.
Proof. unfold before. rewrite orb_true_iff, andb_true_iff. lia. Qed.

Lemma not_before_le r b :
  before E r b = false → Fact.last_updated r ≤ Fact.last_updated b.
Proof. unfold before. rewrite orb_false_iff. lia. Qed.

Lemma later_of_fold (l : list Fact.row) :
  ∀ b, ∃ r,
    foldl (later_of E) (Some b) l = Some r
    ∧ (r = b ∨ r ∈ l)
    ∧ Fact.last_updated b ≤ Fact.last_updated r
    ∧ ∀ x, x ∈ l → Fact.last_updated x ≤ Fact.last_updated r.
Proof.
  induction l as [|x l IH]; intros b.
  - exists b. split_and!; [done|by left|lia|].
    intros x Hx. by apply elem_of_nil in Hx.
  - simpl. destruct (before E x b) eqn:Hxb.
    + destruct (IH x) as (r & Hr & Hin & Hle & Hall).
      apply before_le in Hxb.
      exists r. split_and!; [done| |lia|].
      * right. destruct Hin as [->|?]; [left|by right].
      * intros y [->|Hy]%elem_of_cons; [lia|by apply Hall].
    + destruct (IH b) as (r & Hr & Hin & Hle & Hall).
      apply not_before_le in Hxb.
      exists r. split_and!; [done| |lia|].
      * destruct Hin as [->|?]; [by left|right; by right].
      * intros y [->|Hy]%elem_of_cons; [lia|by apply Hall].
Qed.

(** The row numbered 1 is a row of the partition with the greatest
    [last_updated]. *)
Lemma first_row_latest (partition : list Fact.row) :
  partition ≠ [] →
  ∃ r, first_row E partition = Some r ∧ r ∈ partition
       ∧ ∀ x, x ∈ partition → Fact.last_updated x ≤ Fact.last_updated r.
Proof.
  destruct partition as [|b l]; [done|]. intros _.
  unfold first_row. simpl.
  destruct (later_of_fold l b) as (r & Hr & Hin & Hle & Hall).
  exists r. split_and!; [done| |].
  - destruct Hin as [->|?]; [left|by right].
  - intros y [->|Hy]%elem_of_cons; [lia|by apply Hall].
Qed.

Lemma first_row_strict (partition : list Fact.row) (r2 : Fact.row) :
  r2 ∈ partition →
  (∀ x, x ∈ partition →
        x = r2 ∨ Fact.last_updated x < Fact.last_updated r2) →
  first_row E partition = Some r2.
Proof.
  intros Hin Hmax.
  destruct (first_row_latest partition) as (r & Hr & Hrin & Hall).
  { intros ->. by apply elem_of_nil in Hin. }
  rewrite Hr. f_equal.
  destruct (Hmax r Hrin) as [->|Hlt]; [done|].
  specialize (Hall r2 Hin). lia.
Qed.

Lemma elem_of_partition_of u t r :
  r ∈ partition_of u t ↔ r ∈ t ∧ Fact.game_url r = u.
Proof.
  unfold partition_of. rewrite !list_elem_of_In, filter_In.
  by rewrite bool_decide_eq_true.
Qed.

Lemma partition_of_cons u r t :
  partition_of u (r :: t)
  = if decide (Fact.game_url r = u) then r :: partition_of u t
    else partition_of u t.
Proof.
  unfold partition_of. simpl. case_decide.
  - by rewrite bool_decide_eq_true_2.
  - by rewrite bool_decide_eq_false_2.
Qed.

Lemma partition_of_app u t1 t2 :
  partition_of u (t1 ++ t2) = partition_of u t1 ++ partition_of u t2.
Proof. unfold partition_of. apply List.filter_app. Qed.

Lemma partition_of_empty u t :
  u ∉ Fact.game_url <$> t → partition_of u t = [].
Proof.
  intros Hu. induction t as [|r t IH]; [done|].
  rewrite fmap_cons, not_elem_of_cons in Hu. destruct Hu as [Hne Hu].
  rewrite partition_of_cons, decide_False by done. by apply IH.
Qed.

(** One row per key out of a list of distinct keys. *)
Lemma partition_of_omap (f : option string → option Fact.row) u keys :
  (∀ k r, f k = Some r → Fact.game_url r = k) →
  NoDup keys →
  partition_of u (omap f keys)
  = if decide (u ∈ keys) then option_list (f u) else [].
Proof.
  intros Hf. induction 1 as [|k keys Hk Hnd IH]; [done|].
  change (omap f (k :: keys))
    with (match f k with Some r => r :: omap f keys | None => omap f keys end).
  destruct (decide (k = u)) as [->|Hne].
  - rewrite decide_True by left.
    rewrite decide_False in IH by done.
    destruct (f u) as [r|] eqn:Hfu; [|done].
    by rewrite partition_of_cons, decide_True, IH by eauto.
  - assert (partition_of u
              (match f k with Some r => r :: omap f keys | None => omap f keys end)
            = partition_of u (omap f keys)) as ->.
    { destruct (f k) as [r|] eqn:Hfk; [|done].
      rewrite partition_of_cons, decide_False; [done|].
      by rewrite (Hf _ _ Hfk). }
    rewrite IH.
    destruct (decide (u ∈ keys)) as [Hin|Hnin].
    + by rewrite decide_True by (by right).
    + rewrite decide_False; [done|].
      rewrite not_elem_of_cons. split; [congruence|done].
Qed.

Lemma first_row_url u t r :
  first_row E (partition_of u t) = Some r → Fact.game_url r = u.
Proof.
  intros Hr.
  destruct (decide (partition_of u t = [])) as [Hnil|Hne].
  { by rewrite Hnil in Hr. }
  destruct (first_row_latest _ Hne) as (r' & Hr' & Hin & _).
  rewrite Hr in Hr'. simplify_eq.
  by apply elem_of_partition_of in Hin as [_ ?].
Qed.

(** What the window keeps of each partition. *)
Lemma partition_of_keep_latest u t :
  partition_of u (keep_latest E t)
  = option_list (first_row E (partition_of u t)).
Proof.
  unfold keep_latest.
  rewrite (partition_of_omap (fun u => first_row E (partition_of u t)));
    [|intros k r; apply first_row_url|apply NoDup_remove_dups].
  case_decide as Hu; [done|].
  rewrite elem_of_remove_dups in Hu. by rewrite partition_of_empty.
Qed.

(** After the window every game URL of the input has exactly one row, and
    no other URL has any. *)
Lemma keep_latest_one_row_per_url t u :
  length (partition_of u (keep_latest E t))
  = if decide (u ∈ Fact.game_url <$> t) then 1%nat else 0%nat.
Proof.
  rewrite partition_of_keep_latest. case_decide as Hu.
  - destruct (first_row_latest (partition_of u t)) as (r & -> & _); [|done].
    apply list_elem_of_fmap in Hu as (r & -> & Hr).
    intros Hnil.
    assert (r ∈ partition_of (Fact.game_url r) t) as Hin
      by (by apply elem_of_partition_of).
    rewrite Hnil in Hin. by apply elem_of_nil in Hin.
  - by rewrite partition_of_empty.
Qed.

Lemma keep_latest_urls t :
  Fact.game_url <$> keep_latest E t = remove_dups (Fact.game_url <$> t).
Proof.
  unfold keep_latest.
  assert (Hsub : ∀ k, k ∈ remove_dups (Fact.game_url <$> t) →
                      k ∈ Fact.game_url <$> t)
    by (intros k; by rewrite elem_of_remove_dups).
  induction (remove_dups (Fact.game_url <$> t)) as [|k keys IH]; [done|].
  simpl.
  destruct (first_row_latest (partition_of k t)) as (r & Hr & Hin & _).
  { specialize (Hsub k (list_elem_of_here _ _)).
    apply list_elem_of_fmap in Hsub as (r & -> & Hr). intros Hnil.
    assert (r ∈ partition_of (Fact.game_url r) t) as Hin
      by (by apply elem_of_partition_of).
    rewrite Hnil in Hin. by apply elem_of_nil in Hin. }
  rewrite Hr. simpl. apply elem_of_partition_of in Hin as [_ ->].
  f_equal. apply IH. intros k' Hk'. apply Hsub. by right.
Qed.

(** *** The store *)

Lemma load_fact_table_existing filename exec_date st source dim_date
    dim_openings dim_results dim_time_control prev_fact_table :
  st !! filename = Some (SilverBlob source) →
  st !! dim_date_file = Some (DimDateBlob dim_date) →
  st !! dim_openings_file = Some (DimOpeningsBlob dim_openings) →
  st !! dim_results_file = Some (DimResultsBlob dim_results) →
  st !! dim_time_control_file = Some (DimTimeControlBlob dim_time_control) →
  st !! fact_file = Some (FactBlob prev_fact_table) →
  load_fact_table E filename exec_date st
  = Ok (<[fact_file :=
            FactBlob (merge_fact E prev_fact_table
                        (join_dimensions (fct_row E exec_date <$> source)
                           dim_date dim_openings dim_results
                           dim_time_control))]> st).
Proof.
  intros Hs Hd Ho Hr Ht Hf.
  unfold load_fact_table, check_for_blob, read_silver, read_dim_date,
    read_dim_openings, read_dim_results, read_dim_time_control, read_fact.
  by rewrite Hs, Hd, Ho, Hr, Ht, Hf.
Qed.

Lemma load_fact_table_first filename exec_date st source dim_date
    dim_openings dim_results dim_time_control :
  st !! filename = Some (SilverBlob source) →
  st !! dim_date_file = Some (DimDateBlob dim_date) →
  st !! dim_openings_file = Some (DimOpeningsBlob dim_openings) →
  st !! dim_results_file = Some (DimResultsBlob dim_results) →
  st !! dim_time_control_file = Some (DimTimeControlBlob dim_time_control) →
  st !! fact_file = None →
  load_fact_table E filename exec_date st
  = Ok (<[fact_file :=
            FactBlob (join_dimensions (fct_row E exec_date <$> source)
                        dim_date dim_openings dim_results
                        dim_time_control)]> st).
Proof.
  intros Hs Hd Ho Hr Ht Hf.
  unfold load_fact_table, check_for_blob, read_silver, read_dim_date,
    read_dim_openings, read_dim_results, read_dim_time_control, read_fact.
  by rewrite Hs, Hd, Ho, Hr, Ht, Hf.
Qed.

End FactFacts.

(** C7: the joined table is the parsed fact table with every row repeated
    as many times as the five left joins match it, and at least once: a row
    without a match in a dimension (a NULL or unknown game_date, opening_url,
    result code or time_control) is padded, not dropped.  So every parsed
    fact row is a row of the joined output, and the output has no other
    rows. *)
Theorem left_joins_drop_no_row (fct : list Fact.row)
    (dim_date : list DimDate.row) (dim_openings : list DimOpenings.row)
    (dim_results : list DimResults.row)
    (dim_time_control : list DimTimeControl.row) :
  join_dimensions fct dim_date dim_openings dim_results dim_time_control
  = fct ≫= (fun fact =>
              replicate (fan_out dim_date dim_openings dim_results
                           dim_time_control fact) fact)
  ∧ (∀ fact,
       (1 ≤ fan_out dim_date dim_openings dim_results dim_time_control fact)%nat)
  ∧ (∀ fact,
       fact ∈ fct ↔
       fact ∈ join_dimensions fct dim_date dim_openings dim_results
                dim_time_control).
Proof.
  split; [apply join_dimensions_fan_out|]. split.
  - apply fan_out_pos.
  - intros fact. symmetry. apply elem_of_join_dimensions.
Qed.

Lemma left_joins_drop_no_row_witness :
  fact_at 100 ∈ join_dimensions [fact_at 100] [] [] [] [].
Proof.
  apply (proj2 (proj2 (left_joins_drop_no_row [fact_at 100] [] [] [] []))
           (fact_at 100)).
  apply list_elem_of_here.
Defined.

(** C1: when the fact file exists, the published table is the window over
    the previous rows and the rows of the batch.  For every game URL among
    them it holds exactly one row, a row of that URL with the greatest
    [last_updated].  In particular, of two rows [r1], [r2] that are alone in
    sharing a game URL, with last_updated T1 < T2, exactly [r2] is kept. *)
Theorem merge_fact_keeps_latest (E : env) (prev_fact_table fact_table : list Fact.row) :
  (∀ u, u ∈ Fact.game_url <$> prev_fact_table ++ fact_table →
        ∃ r, partition_of u (merge_fact E prev_fact_table fact_table) = [r]
             ∧ r ∈ prev_fact_table ++ fact_table
             ∧ Fact.game_url r = u
             ∧ ∀ x, x ∈ prev_fact_table ++ fact_table → Fact.game_url x = u →
                    Fact.last_updated x ≤ Fact.last_updated r)
  ∧ (∀ r1 r2,
       r1 ∈ prev_fact_table ++ fact_table →
       r2 ∈ prev_fact_table ++ fact_table →
       Fact.game_url r1 = Fact.game_url r2 →
       Fact.last_updated r1 < Fact.last_updated r2 →
       (∀ x, x ∈ prev_fact_table ++ fact_table →
             Fact.game_url x = Fact.game_url r2 → x = r1 ∨ x = r2) →
       partition_of (Fact.game_url r2) (merge_fact E prev_fact_table fact_table)
       = [r2]).
Proof.
  unfold merge_fact, Sql.union_all. split.
  - intros u Hu. rewrite partition_of_keep_latest.
    destruct (first_row_latest E (partition_of u (prev_fact_table ++ fact_table)))
      as (r & Hr & Hin & Hmax).
    { apply list_elem_of_fmap in Hu as (r & -> & Hr). intros Hnil.
      assert (r ∈ partition_of (Fact.game_url r) (prev_fact_table ++ fact_table))
        as Hin by (by apply elem_of_partition_of).
      rewrite Hnil in Hin. by apply elem_of_nil in Hin. }
    apply elem_of_partition_of in Hin as [Hin Hurl].
    exists r. rewrite Hr. split_and!; try done.
    intros x Hx Hxu. apply Hmax. by apply elem_of_partition_of.
  - intros r1 r2 H1 H2 Hurl Hlt Honly.
    rewrite partition_of_keep_latest.
    rewrite (first_row_strict E _ r2); [done| |].
    + by apply elem_of_partition_of.
    + intros x [Hx Hxu]%elem_of_partition_of.
      destruct (Honly x Hx Hxu) as [->| ->]; [by right|by left].
Qed.

Lemma merge_fact_keeps_latest_witness :
  partition_of (Fact.game_url (fact_at 200))
    (merge_fact sample_env [fact_at 100] [fact_at 200])
  = [fact_at 200].
Proof.
  apply (proj2 (merge_fact_keeps_latest sample_env [fact_at 100] [fact_at 200])
           (fact_at 100) (fact_at 200)).
  - apply list_elem_of_here.
  - apply list_elem_of_further, list_elem_of_here.
  - reflexivity.
  - simpl. lia.
  - intros x Hx _. apply elem_of_cons in Hx as [->|Hx]; [by left|].
    apply elem_of_cons in Hx as [->|Hx]; [by right|].
    by apply elem_of_nil in Hx.
Defined.

(** With an existing fact file the published table has one row per game
    URL, whatever the batch. *)
Lemma merge_fact_one_row_per_url (E : env)
    (prev_fact_table fact_table : list Fact.row) :
  NoDup (Fact.game_url <$> merge_fact E prev_fact_table fact_table)
  ∧ ∀ u, length (partition_of u (merge_fact E prev_fact_table fact_table))
         = if decide (u ∈ Fact.game_url <$> prev_fact_table ++ fact_table)
           then 1%nat else 0%nat.
Proof.
  unfold merge_fact, Sql.union_all. split.
  - rewrite keep_latest_urls. apply NoDup_remove_dups.
  - intros u. apply keep_latest_one_row_per_url.
Qed.

(** On a first run the joined batch is published as it is. *)
Lemma first_load_publishes_join (E : env) filename exec_date st source
    dim_date dim_openings dim_results dim_time_control :
  st !! filename = Some (SilverBlob source) →
  st !! dim_date_file = Some (DimDateBlob dim_date) →
  st !! dim_openings_file = Some (DimOpeningsBlob dim_openings) →
  st !! dim_results_file = Some (DimResultsBlob dim_results) →
  st !! dim_time_control_file = Some (DimTimeControlBlob dim_time_control) →
  st !! fact_file = None →
  ∃ t, load_fact_table E filename exec_date st = Ok (<[fact_file := FactBlob t]> st)
       ∧ ∀ fact, fact ∈ t ↔ fact ∈ fct_row E exec_date <$> source.
Proof.
  intros Hs Hd Ho Hr Ht Hf. eexists. split.
  - by eapply load_fact_table_first.
  - intros fact. apply elem_of_join_dimensions.
Qed.

(** The first-run branches of the three dimension loaders. *)
Lemma load_dim_openings_first (E : env) filename st source :
  st !! filename = Some (SilverBlob source) →
  st !! dim_openings_file = None →
  load_dim_openings E filename st
  = Ok (<[dim_openings_file :=
            DimOpeningsBlob (dim_openings_initial E source)]> st).
Proof.
  intros Hs Hd.
  unfold load_dim_openings, check_for_blob, read_silver.
  by rewrite Hs, Hd.
Qed.

Lemma load_dim_date_first filename st source :
  st !! filename = Some (SilverBlob source) →
  st !! dim_date_file = None →
  load_dim_date filename st
  = Ok (<[dim_date_file := DimDateBlob (dim_date_initial source)]> st).
Proof.
  intros Hs Hd.
  unfold load_dim_date, check_for_blob, read_silver.
  by rewrite Hs, Hd.
Qed.

Lemma load_dim_time_control_first (E : env) filename st source :
  st !! filename = Some (SilverBlob source) →
  st !! dim_time_control_file = None →
  load_dim_time_control E filename st
  = Ok (<[dim_time_control_file :=
            DimTimeControlBlob (dim_time_control_initial E source)]> st).
Proof.
  intros Hs Hd.
  unfold load_dim_time_control, check_for_blob, read_silver.
  by rewrite Hs, Hd.
Qed.

Lemma load_dim_results_first filename st :
  st !! dim_results_file = None →
  load_dim_results filename st
  = Ok (<[dim_results_file := DimResultsBlob dim_results_seed]> st).
Proof.
  intros Hd. unfold load_dim_results, check_for_blob. by rewrite Hd.
Qed.

Lemma partition_of_replicate u k fact :
  Fact.game_url fact = u → partition_of u (replicate k fact) = replicate k fact.
Proof.
  intros Hu. induction k as [|k IH]; [done|].
  change (replicate (S k) fact) with (fact :: replicate k fact).
  by rewrite partition_of_cons, decide_True, IH.
Qed.

(** A row repeated [n] times by the joins has at least [n] rows in its
    partition. *)
Lemma partition_of_fan_out u (n : Fact.row → nat) (t : list Fact.row) fact :
  fact ∈ t → Fact.game_url fact = u →
  (n fact ≤ length (partition_of u (t ≫= fun f => replicate (n f) f)))%nat.
Proof.
  intros Hin Hu. induction t as [|f t IH]; [by apply elem_of_nil in Hin|].
  rewrite bind_cons, partition_of_app, length_app.
  apply elem_of_cons in Hin as [<-|Hin].
  - rewrite partition_of_replicate, length_replicate by done. lia.
  - specialize (IH Hin). lia.
Qed.

(** A first run of the gold tasks on the sample batch, for any registered
    functions that give the time control "600" a label: both games get at
    least two rows in the published fact table. *)
Lemma first_gold_run_fans_out (E : env) (exec_date : Z) (label : string) :
  format_time_control E (Some "600") = Some label →
  ∃ st' t,
    gold_run E silver_file exec_date first_run_store = Ok st'
    ∧ st' !! fact_file = Some (FactBlob t)
    ∧ (2 ≤ length (partition_of (Some "https://www.chess.com/game/live/1") t))%nat
    ∧ (2 ≤ length (partition_of (Some "https://www.chess.com/game/live/2") t))%nat.
Proof.
  intros Hlabel. unfold gold_run.
  rewrite (load_dim_openings_first E silver_file first_run_store silver_batch)
    by reflexivity.
  cbn [mbind result_bind].
  erewrite (load_dim_date_first silver_file _ silver_batch) by lookup_store.
  cbn [mbind result_bind].
  erewrite (load_dim_time_control_first E silver_file _ silver_batch)
    by lookup_store.
  cbn [mbind result_bind].
  erewrite load_dim_results_first by lookup_store.
  cbn [mbind result_bind].
  erewrite (load_fact_table_first E silver_file exec_date _ silver_batch)
    by lookup_store.
  eexists _, _. split; [reflexivity|]. split; [apply lookup_insert_eq|].
  rewrite join_dimensions_fan_out.
  assert (Htc : Silver.time_control <$> silver_batch = [Some "600"; Some "600"])
    by (by vm_compute).
  assert (Hurl : Silver.game_url <$> silver_batch
                 = [Some "https://www.chess.com/game/live/1";
                    Some "https://www.chess.com/game/live/2"])
    by (by vm_compute).
  destruct silver_batch as [|s1 [|s2 [|]]]; try done.
  injection Htc as Htc1 Htc2. injection Hurl as Hurl1 Hurl2.
  set (dt := dim_date_initial _). set (do := dim_openings_initial _ _).
  assert (Hfan : ∀ s, (s = s1 ∨ s = s2) →
            (2 ≤ fan_out dt do dim_results_seed
                   (dim_time_control_initial E [s1; s2])
                   (fct_row E exec_date s))%nat).
  { intros s Hs. unfold fan_out.
    pose proof (SqlFacts.copies_pos on_date (fct_row E exec_date s) dt).
    pose proof (SqlFacts.copies_pos on_opening (fct_row E exec_date s) do).
    pose proof (SqlFacts.copies_pos on_my_result (fct_row E exec_date s)
                  dim_results_seed).
    pose proof (SqlFacts.copies_pos on_opponent_result (fct_row E exec_date s)
                  dim_results_seed).
    assert (Sql.copies on_time_control (fct_row E exec_date s)
              (dim_time_control_initial E [s1; s2]) = 2%nat) as ->.
    { unfold Sql.copies, dim_time_control_initial, on_time_control.
      simpl. rewrite Htc1, Htc2.
      destruct Hs as [-> | ->]; rewrite ?Htc1, ?Htc2, Hlabel; simpl;
        by rewrite bool_decide_eq_true_2. }
    nia. }
  split.
  - etrans; [apply (Hfan s1); by left|].
    apply (partition_of_fan_out _
             (fan_out dt do dim_results_seed (dim_time_control_initial E [s1; s2]))
             _ (fct_row E exec_date s1)); [|done].
    apply list_elem_of_here.
  - etrans; [apply (Hfan s2); by right|].
    apply (partition_of_fan_out _
             (fan_out dt do dim_results_seed (dim_time_control_initial E [s1; s2]))
             _ (fct_row E exec_date s2)); [|done].
    apply list_elem_of_further, list_elem_of_here.
Qed.

(** C2 fails on a first run, where [load_fact_table] publishes the joined
    batch without the window.  (1) The gold tasks run on the silver table of
    two different games with the same time control: the first
    [dim_time_control] has one row per game, the join matches each fact row
    twice, and the published fact table has two rows for each game URL.
    (2) The same for any registered functions that give that time control a
    label: each of the two games has at least two rows.  (3) A first fact
    load whose batch lists one game twice publishes both rows, whatever the
    registered functions. *)
Theorem first_run_publishes_duplicates :
  (∃ st' t,
     gold_run sample_env silver_file 100 first_run_store = Ok st'
     ∧ st' !! fact_file = Some (FactBlob t)
     ∧ Fact.game_url <$> t
       = [Some "https://www.chess.com/game/live/1";
          Some "https://www.chess.com/game/live/1";
          Some "https://www.chess.com/game/live/2";
          Some "https://www.chess.com/game/live/2"])
  ∧ (∀ (E : env) (exec_date : Z) (label : string),
       format_time_control E (Some "600") = Some label →
       ∃ st' t,
         gold_run E silver_file exec_date first_run_store = Ok st'
         ∧ st' !! fact_file = Some (FactBlob t)
         ∧ (2 ≤ length (partition_of
                          (Some "https://www.chess.com/game/live/1") t))%nat
         ∧ (2 ≤ length (partition_of
                          (Some "https://www.chess.com/game/live/2") t))%nat)
  ∧ (∀ (E : env) (exec_date : Z), ∃ t,
       load_fact_table E silver_file exec_date duplicate_batch_store
       = Ok (<[fact_file := FactBlob t]> duplicate_batch_store)
       ∧ Fact.game_url <$> t
         = [Some "https://www.chess.com/game/live/1";
            Some "https://www.chess.com/game/live/1"]).
Proof.
  split_and!.
  - eexists _, _. split; [by vm_compute|]. split; by vm_compute.
  - apply first_gold_run_fans_out.
  - intros E exec_date. eexists. split.
    + by apply (load_fact_table_first E silver_file exec_date
                  duplicate_batch_store
                  (take 1 silver_batch ++ take 1 silver_batch) [] [] [] []).
    + reflexivity.
Qed.

(** ** Properties of the dimension merges *)

Section MergeShape.
Context {S R K : Type} `{EqDecision R} `{EqDecision K}.
Variables (raw_key : S → option K) (select : S → R) (key : R → option K).

Lemma elem_of_merge_shape source destination r :
  r ∈ merge_shape raw_key select key source destination
  ↔ r ∈ destination
    ∨ ∃ s, s ∈ source ∧ r = select s
           ∧ (destination = []
              ∨ ∃ k, raw_key s = Some k ∧ (Some k ∉ key <$> destination)
                     ∧ (None ∉ key <$> destination)).
Proof.
  unfold merge_shape, Sql.distinct.
  rewrite SqlFacts.elem_of_union, elem_of_remove_dups, list_elem_of_fmap.
  setoid_rewrite SqlFacts.elem_of_where.
  setoid_rewrite SqlFacts.not_in_true.
  split.
  - intros [(s & -> & Hs & Hkey)|?]; [right|by left].
    exists s. split_and!; [done..|].
    destruct Hkey as [?%fmap_nil_inv|?]; eauto.
  - intros [?|(s & Hs & -> & Hkey)]; [by right|left].
    exists s. split_and!; [done..|].
    destruct Hkey as [->|?]; eauto.
Qed.

Lemma NoDup_merge_shape source destination :
  NoDup (merge_shape raw_key select key source destination).
Proof. apply SqlFacts.NoDup_union. Qed.

(** [NOT IN] against more keys is TRUE only if it was TRUE against
    fewer. *)
Lemma not_in_mono (x : option K) (keys keys' : list (option K)) :
  keys ⊆ keys' → Sql.not_in x keys' = Some true → Sql.not_in x keys = Some true.
Proof.
  rewrite !SqlFacts.not_in_true. intros Hsub [->|(k & -> & Hk & Hnone)].
  - left. destruct keys as [|k keys]; [done|].
    specialize (Hsub k (list_elem_of_here _ _)). by apply elem_of_nil in Hsub.
  - right. exists k. split_and!; [done|..]; intros ?; eauto.
Qed.

(** Rows that are already in a duplicate-free table add nothing to it. *)
Lemma union_absorb (t1 t2 : list R) :
  NoDup t2 → (∀ r, r ∈ t1 → r ∈ t2) → Sql.union t1 t2 = t2.
Proof.
  intros Hnd Hsub. unfold Sql.union.
  induction t1 as [|r t1 IH]; [by apply SqlFacts.remove_dups_NoDup|].
  simpl. destruct (decide_rel elem_of r (t1 ++ t2)) as [_|Hr].
  - apply IH. intros r' Hr'. apply Hsub. by right.
  - destruct Hr. apply elem_of_app. right. apply Hsub. by left.
Qed.

(** Merging the same batch again changes nothing. *)
Lemma merge_shape_idempotent source destination :
  merge_shape raw_key select key source
    (merge_shape raw_key select key source destination)
  = merge_shape raw_key select key source destination.
Proof.
  set (m := merge_shape raw_key select key source destination).
  unfold merge_shape at 1. apply union_absorb; [apply NoDup_merge_shape|].
  intros r. unfold Sql.distinct.
  rewrite elem_of_remove_dups, list_elem_of_fmap.
  intros (s & -> & [Hs Hkey]%SqlFacts.elem_of_where).
  apply (not_in_mono _ (key <$> destination)) in Hkey.
  - unfold m, merge_shape. apply SqlFacts.elem_of_union. left.
    unfold Sql.distinct. rewrite elem_of_remove_dups.
    apply list_elem_of_fmap_2. by apply SqlFacts.elem_of_where.
  - intros k (r & -> & Hr)%list_elem_of_fmap.
    apply list_elem_of_fmap_2. unfold m, merge_shape.
    apply SqlFacts.elem_of_union. by right.
Qed.

(** Merging a batch into a duplicate-free table that already holds all its
    candidate rows changes nothing. *)
Lemma merge_shape_absorbed source destination :
  NoDup destination → (∀ s, s ∈ source → select s ∈ destination) →
  merge_shape raw_key select key source destination = destination.
Proof.
  intros Hnd Hall. unfold merge_shape. apply union_absorb; [done|].
  intros r. unfold Sql.distinct.
  rewrite elem_of_remove_dups, list_elem_of_fmap.
  intros (s & -> & [Hs _]%SqlFacts.elem_of_where). by apply Hall.
Qed.

(** When the select list keeps the tested column as the key, a second
    merge of the same batch finds no candidate row at all. *)
Lemma merge_shape_no_candidate source destination :
  (∀ s, key (select s) = raw_key s) →
  Sql.where_
    (fun s => Sql.not_in (raw_key s)
                (key <$> merge_shape raw_key select key source destination))
    source = [].
Proof.
  intros Hkey. apply SqlFacts.where_nil. intros s Hs Hin.
  assert (select s ∈ merge_shape raw_key select key source destination) as Hsel.
  { apply (not_in_mono _ (key <$> destination)) in Hin as Hin'.
    - unfold merge_shape. apply SqlFacts.elem_of_union. left.
      unfold Sql.distinct. rewrite elem_of_remove_dups.
      apply list_elem_of_fmap_2. by apply SqlFacts.elem_of_where.
    - intros k (r & -> & Hr)%list_elem_of_fmap.
      apply list_elem_of_fmap_2. unfold merge_shape.
      apply SqlFacts.elem_of_union. by right. }
  apply SqlFacts.not_in_true in Hin as [Hnil|(k & Hk & Hnotin & _)].
  - apply fmap_nil_inv in Hnil. rewrite Hnil in Hsel.
    by apply elem_of_nil in Hsel.
  - destruct Hnotin. rewrite <- Hk, <- Hkey. by apply list_elem_of_fmap_2.
Qed.

Lemma initial_no_candidate source (t : list R) :
  (∀ s, key (select s) = raw_key s) →
  (∀ s, s ∈ source → select s ∈ t) →
  Sql.where_ (fun s => Sql.not_in (raw_key s) (key <$> t)) source = [].
Proof.
  intros Hkey Hall. apply SqlFacts.where_nil. intros s Hs Hin.
  specialize (Hall s Hs).
  apply SqlFacts.not_in_true in Hin as [Hnil|(k & Hk & Hnotin & _)].
  - apply fmap_nil_inv in Hnil. rewrite Hnil in Hall.
    by apply elem_of_nil in Hall.
  - destruct Hnotin. rewrite <- Hk, <- Hkey. by apply list_elem_of_fmap_2.
Qed.
End MergeShape.

Section DimensionFacts.
Variable E : env.

Lemma dim_openings_merge_shape source destination :
  dim_openings_merge E source destination
  = merge_shape Silver.pgn_eco_url (opening_row E) DimOpenings.pgn_eco_url
      source destination.
Proof. reflexivity. Qed.

Lemma dim_date_merge_shape source destination :
  dim_date_merge source destination
  = merge_shape Silver.game_date date_row DimDate.game_date
      source destination.
Proof. reflexivity. Qed.

Lemma dim_time_control_merge_shape source destination :
  dim_time_control_merge E source destination
  = merge_shape Silver.time_control (time_control_row E)
      DimTimeControl.time_control source destination.
Proof. reflexivity. Qed.

Lemma NoDup_dim_openings_initial source : NoDup (dim_openings_initial E source).
Proof. apply NoDup_remove_dups. Qed.

Lemma elem_of_dim_openings_initial source s :
  s ∈ source → opening_row E s ∈ dim_openings_initial E source.
Proof.
  intros Hs. unfold dim_openings_initial, Sql.distinct.
  rewrite elem_of_remove_dups. by apply list_elem_of_fmap_2.
Qed.

(** What a successful [load_dim_openings] has read and written. *)
Lemma load_dim_openings_inv filename st st1 :
  load_dim_openings E filename st = Ok st1 →
  ∃ source cur,
    st !! filename = Some (SilverBlob source)
    ∧ filename ≠ dim_openings_file
    ∧ st1 = <[dim_openings_file := DimOpeningsBlob cur]> st
    ∧ ((∃ destination,
          st !! dim_openings_file = Some (DimOpeningsBlob destination)
          ∧ cur = dim_openings_merge E source destination)
       ∨ (st !! dim_openings_file = None
          ∧ cur = dim_openings_initial E source)).
Proof.
  unfold load_dim_openings, check_for_blob, read_silver, read_dim_openings,
    load_file.
  destruct (st !! filename) as [[| source | | | | |]|] eqn:Hs; simpl; try done.
  destruct (st !! dim_openings_file) as [b|] eqn:Hd.
  - rewrite bool_decide_eq_true_2 by eauto.
    destruct b as [| | destination | | | |]; simpl; try done.
    intros [= <-]. exists source, (dim_openings_merge E source destination).
    split_and!; [done|congruence|done|]. left. eauto.
  - rewrite bool_decide_eq_false_2 by (by intros [? ?]). simpl.
    intros [= <-]. exists source, (dim_openings_initial E source).
    split_and!; [done|congruence|done|]. by right.
Qed.

Lemma load_dim_openings_existing filename st source destination :
  st !! filename = Some (SilverBlob source) →
  st !! dim_openings_file = Some (DimOpeningsBlob destination) →
  load_dim_openings E filename st
  = Ok (<[dim_openings_file :=
            DimOpeningsBlob (dim_openings_merge E source destination)]> st).
Proof.
  intros Hs Hd.
  unfold load_dim_openings, check_for_blob, read_silver, read_dim_openings.
  by rewrite Hs, Hd.
Qed.

(** The snapshot a successful [load_dim_openings] leaves has no duplicate
    row, absorbs a second merge of the same batch, and leaves the WHERE
    clause of that merge no candidate row. *)
Lemma dim_openings_settled source cur :
  ((∃ destination, cur = dim_openings_merge E source destination)
   ∨ cur = dim_openings_initial E source) →
  NoDup cur
  ∧ dim_openings_merge E source cur = cur
  ∧ Sql.where_
      (fun s => Sql.not_in (Silver.pgn_eco_url s)
                  (DimOpenings.pgn_eco_url <$> cur))
      source = [].
Proof.
  intros [(destination & ->)| ->].
  - rewrite !dim_openings_merge_shape. split_and!.
    + apply NoDup_merge_shape.
    + apply merge_shape_idempotent.
    + by apply merge_shape_no_candidate.
  - rewrite dim_openings_merge_shape. split_and!.
    + apply NoDup_dim_openings_initial.
    + apply merge_shape_absorbed;
        auto using NoDup_dim_openings_initial, elem_of_dim_openings_initial.
    + apply (initial_no_candidate Silver.pgn_eco_url (opening_row E));
        auto using elem_of_dim_openings_initial.
Qed.

(** A stored results dimension is never touched. *)
Lemma load_dim_results_existing filename st t :
  st !! dim_results_file = Some (DimResultsBlob t) →
  load_dim_results filename st = Ok st.
Proof.
  intros Hd. unfold load_dim_results, check_for_blob, read_dim_results.
  by rewrite Hd.
Qed.

(** The date merge and the time-control merge absorb a second merge of the
    same batch as well. *)
Lemma dim_date_merge_idempotent source destination :
  dim_date_merge source (dim_date_merge source destination)
  = dim_date_merge source destination.
Proof. rewrite !dim_date_merge_shape. apply merge_shape_idempotent. Qed.

Lemma dim_time_control_merge_idempotent source destination :
  dim_time_control_merge E source (dim_time_control_merge E source destination)
  = dim_time_control_merge E source destination.
Proof. rewrite !dim_time_control_merge_shape. apply merge_shape_idempotent. Qed.

End DimensionFacts.

(** The first time-control snapshot is written without DISTINCT: it holds
    a row per game, and the next merge of the same batch shrinks it. *)
Example dim_time_control_first_snapshot_repeats :
  dim_time_control_initial sample_env silver_batch
  = [DimTimeControl.Row (Some "600") (Some "rapid");
     DimTimeControl.Row (Some "600") (Some "rapid")]
  ∧ dim_time_control_merge sample_env silver_batch
      (dim_time_control_initial sample_env silver_batch)
    = [DimTimeControl.Row (Some "600") (Some "rapid")].
Proof. split; by vm_compute. Qed.

(** The time-control merge tests the raw code: a candidate row whose
    formatted key is already stored passes the test, and is added when it
    differs from the stored row in its class. *)
Example dim_time_control_tests_raw_code :
  dim_time_control_merge labelling_env silver_game_3
    [DimTimeControl.Row (Some "10 min") (Some "rapid")]
  = [DimTimeControl.Row (Some "10 min") (Some "blitz");
     DimTimeControl.Row (Some "10 min") (Some "rapid")].
Proof. by vm_compute. Qed.

(** C5: the openings merge is idempotent.  Whatever the store the first run
    starts from (with or without a snapshot of the dimension), running
    [load_dim_openings] again on the store the first run left, with the same
    batch, leaves that store as it is; the snapshot has no duplicate row and
    the second run's WHERE clause lets no candidate row through, so no key
    is added a second time. *)
Theorem load_dim_openings_idempotent (E : env) (filename : string)
    (st st1 : store) :
  load_dim_openings E filename st = Ok st1 →
  load_dim_openings E filename st1 = Ok st1
  ∧ ∃ source snapshot,
      st1 !! filename = Some (SilverBlob source)
      ∧ st1 !! dim_openings_file = Some (DimOpeningsBlob snapshot)
      ∧ NoDup snapshot
      ∧ Sql.where_
          (fun s => Sql.not_in (Silver.pgn_eco_url s)
                      (DimOpenings.pgn_eco_url <$> snapshot))
          source = [].
Proof.
  intros (source & cur & Hs & Hne & -> & Hcur)%load_dim_openings_inv.
  destruct (dim_openings_settled E source cur) as (Hnd & Hidem & Hwhere).
  { destruct Hcur as [(destination & _ & ->)|[_ ->]]; eauto. }
  assert (<[dim_openings_file := DimOpeningsBlob cur]> st !! filename
          = Some (SilverBlob source)) as Hs1
    by (by rewrite lookup_insert_ne).
  assert (<[dim_openings_file := DimOpeningsBlob cur]> st !! dim_openings_file
          = Some (DimOpeningsBlob cur)) as Hd1
    by apply lookup_insert_eq.
  split.
  - rewrite (load_dim_openings_existing E filename _ source cur Hs1 Hd1).
    by rewrite Hidem, insert_insert_eq.
  - exists source, cur. done.
Qed.

Lemma load_dim_openings_idempotent_witness :
  ∃ st1,
    load_dim_openings sample_env silver_file first_run_store = Ok st1
    ∧ load_dim_openings sample_env silver_file st1 = Ok st1.
Proof.
  eexists. split; [reflexivity|].
  apply (load_dim_openings_idempotent sample_env silver_file first_run_store).
  reflexivity.
Defined.

(** C3, as stated, fails for the results dimension: the batch carries the
    result code "checkmated", the stored dimension holds the code "win"
    only, and [load_dim_results] leaves the store as it is: no row for
    "checkmated" is added. *)
Lemma results_dimension_ignores_batch :
  Some "checkmated" ∈ result_codes silver_batch
  ∧ store_with_results !! dim_results_file
    = Some (DimResultsBlob [result_row "win" "Win" "Win"])
  ∧ (Some "checkmated"
     ∉ DimResults.result_code <$> [result_row "win" "Win" "Win"])
  ∧ load_dim_results silver_file store_with_results = Ok store_with_results.
Proof.
  split_and!.
  - vm_compute. apply list_elem_of_further, list_elem_of_further,
      list_elem_of_here.
  - reflexivity.
  - by intros [= ]%list_elem_of_singleton.
  - reflexivity.
Qed.

(** The time-control merge has the same shape, with the raw time-control
    code of the game under the test. *)
Lemma dim_time_control_merge_rule (E : env) (source : Silver.t) destination r :
  r ∈ dim_time_control_merge E source destination
  ↔ r ∈ destination
    ∨ ∃ s, s ∈ source ∧ r = time_control_row E s
           ∧ (destination = []
              ∨ ∃ k, Silver.time_control s = Some k
                     ∧ (Some k ∉ DimTimeControl.time_control <$> destination)
                     ∧ (None ∉ DimTimeControl.time_control <$> destination)).
Proof. rewrite dim_time_control_merge_shape. apply elem_of_merge_shape. Qed.

(** C3 (as amended): with an existing snapshot, the new snapshot of the
    openings dimension and of the date dimension holds, without duplicate
    rows, the existing rows and exactly those candidate rows of the batch
    whose key passes NOT IN against the existing keys: the snapshot is
    empty, or the key is not NULL, is not an existing key, and no existing
    key is NULL.  The results dimension takes no candidate row from the
    batch: an existing snapshot is left as it is. *)
Theorem dimension_merge_rules (E : env) (source : Silver.t) :
  (∀ destination r,
     r ∈ dim_openings_merge E source destination
     ↔ r ∈ destination
       ∨ ∃ s, s ∈ source ∧ r = opening_row E s
              ∧ (destination = []
                 ∨ ∃ k, DimOpenings.pgn_eco_url (opening_row E s) = Some k
                        ∧ (Some k ∉ DimOpenings.pgn_eco_url <$> destination)
                        ∧ (None ∉ DimOpenings.pgn_eco_url <$> destination)))
  ∧ (∀ destination r,
       r ∈ dim_date_merge source destination
       ↔ r ∈ destination
         ∨ ∃ s, s ∈ source ∧ r = date_row s
                ∧ (destination = []
                   ∨ ∃ k, DimDate.game_date (date_row s) = Some k
                          ∧ (Some k ∉ DimDate.game_date <$> destination)
                          ∧ (None ∉ DimDate.game_date <$> destination)))
  ∧ (∀ destination, NoDup (dim_openings_merge E source destination))
  ∧ (∀ destination, NoDup (dim_date_merge source destination))
  ∧ (∀ filename st t,
       st !! dim_results_file = Some (DimResultsBlob t) →
       load_dim_results filename st = Ok st).
Proof.
  split_and!.
  - intros destination r. rewrite dim_openings_merge_shape.
    apply elem_of_merge_shape.
  - intros destination r. rewrite dim_date_merge_shape.
    apply elem_of_merge_shape.
  - intros destination. apply SqlFacts.NoDup_union.
  - intros destination. apply SqlFacts.NoDup_union.
  - apply load_dim_results_existing.
Qed.

Lemma dimension_merge_rules_witness :
  load_dim_results silver_file store_with_results = Ok store_with_results.
Proof.
  apply (proj2 (proj2 (proj2 (proj2
           (dimension_merge_rules sample_env silver_batch))))
           silver_file store_with_results [result_row "win" "Win" "Win"]).
  reflexivity.
Defined.

(** * Further properties *)

(** ** The fetch step *)

Lemma extract_outcome (api : string → http_outcome) (username : string)
    (year month : Z) (st : store) :
  extract_and_load_chess_data api username year month st
  = match api (games_url username year month) with
    | NoResponse => Raise ConnectionError
    | Response code body =>
        if code =? 200 then
          match body with
          | None => Raise JSONDecodeError
          | Some (JObj members) =>
              let games := default (JArr []) (assoc "games" members) in
              match py_len games with
              | Ok _ =>
                  Ok (PyBool true,
                      <[bronze_blob_name year month := JsonBlob games]> st)
              | Raise e => Raise e
              end
          | Some _ => Raise AttributeError
          end
        else
          Ok (PyBool true,
              <[bronze_blob_name year month := JsonBlob (JArr [])]> st)
    end.
Proof.
  unfold extract_and_load_chess_data, requests_get.
  destruct (api _) as [|code body]; [done|]. simpl.
  destruct (code =? 200); [|done].
  destruct body as [[| | | | | |members]|]; try done.
  simpl. by destruct (py_len _).
Qed.

Lemma py_len_error x e : py_len x = Raise e → e = TypeError.
Proof. destruct x; simpl; congruence. Qed.

(** X1: the fetch step succeeds exactly when there is a response and
    either its status is not 200 (the body is then never looked at) or its
    body is a JSON object whose games member, the empty list when the key is
    missing, has a length.  Otherwise it raises, before anything is written:
    ConnectionError without a response, JSONDecodeError for a 200 body that
    is not JSON, AttributeError for a JSON body that is not an object,
    TypeError for a games member without a length. *)
Theorem extract_succeeds_iff (api : string → http_outcome) (username : string)
    (year month : Z) (st : store) :
  ((∃ r, extract_and_load_chess_data api username year month st = Ok r)
   ↔ ∃ code body,
       api (games_url username year month) = Response code body
       ∧ (code ≠ 200
          ∨ ∃ members n,
              body = Some (JObj members)
              ∧ py_len (default (JArr []) (assoc "games" members)) = Ok n))
  ∧ (api (games_url username year month) = NoResponse →
     extract_and_load_chess_data api username year month st
     = Raise ConnectionError)
  ∧ (api (games_url username year month) = Response 200 None →
     extract_and_load_chess_data api username year month st
     = Raise JSONDecodeError)
  ∧ (∀ j, api (games_url username year month) = Response 200 (Some j) →
          (∀ members, j ≠ JObj members) →
          extract_and_load_chess_data api username year month st
          = Raise AttributeError)
  ∧ (∀ members e,
       api (games_url username year month) = Response 200 (Some (JObj members)) →
       py_len (default (JArr []) (assoc "games" members)) = Raise e →
       extract_and_load_chess_data api username year month st = Raise TypeError).
Proof.
  rewrite extract_outcome. split_and!.
  - destruct (api _) as [|code body] eqn:Hapi.
    { split; [by intros [? ?]|by intros (? & ? & ? & _)]. }
    destruct (Z.eqb_spec code 200) as [->|Hne].
    + split.
      * intros [r Hr]. exists 200, body. split; [done|]. right.
        destruct body as [[| | | | | |members]|]; try done.
        simpl in Hr. destruct (py_len _) as [n|] eqn:Hlen; [|done]. eauto.
      * intros (code & body' & [= <- <-] & [?|(members & n & -> & Hlen)]);
          [done|].
        simpl. rewrite Hlen. eauto.
    + split; [|eauto]. intros _. exists code, body. eauto.
  - by intros ->.
  - by intros ->.
  - intros j -> Hj. simpl. destruct j; try done. by destruct (Hj members).
  - intros members e -> Hlen. simpl. rewrite Hlen.
    by rewrite (py_len_error _ _ Hlen).
Qed.

Lemma extract_succeeds_iff_witness :
  extract_and_load_chess_data (always 200 (Some (JArr []))) "Rhythmbear1" 2024 1 ∅
  = Raise AttributeError.
Proof.
  apply (proj1 (proj2 (proj2 (proj2 (extract_succeeds_iff
           (always 200 (Some (JArr []))) "Rhythmbear1" 2024 1 ∅))))
           (JArr [])); [reflexivity|discriminate].
Defined.

Lemma extract_store (api : string → http_outcome) (username : string)
    (year month : Z) (st : store) v st1 :
  extract_and_load_chess_data api username year month st = Ok (v, st1) →
  st1 = <[bronze_blob_name year month :=
            JsonBlob (landed_games (api (games_url username year month)))]> st.
Proof.
  rewrite extract_outcome.
  destruct (api _) as [|code body]; [done|].
  destruct (Z.eqb_spec code 200) as [->|Hne].
  - destruct body as [[| | | | | |members]|]; try done.
    simpl. destruct (py_len _); [|done]. by intros [= _ <-].
  - intros [= _ <-]. unfold landed_games.
    destruct code as [|c|c]; try done.
    repeat (destruct c as [c|c|]; try done).
Qed.

(** X2: a successful fetch writes one blob and nothing else: the bronze blob
    of the batch now holds the games member of the response (the empty list
    for a status other than 200 and for a 200 object without a games key),
    and every other blob of the container is as it was. *)
Theorem extract_writes_only_bronze (api : string → http_outcome)
    (username : string) (year month : Z) (st st1 : store) (v : pyvalue) :
  extract_and_load_chess_data api username year month st = Ok (v, st1) →
  st1 !! bronze_blob_name year month
  = Some (JsonBlob (landed_games (api (games_url username year month))))
  ∧ ∀ name, name ≠ bronze_blob_name year month → st1 !! name = st !! name.
Proof.
  intros ->%extract_store. split; [apply lookup_insert_eq|].
  intros name Hne. by rewrite lookup_insert_ne.
Qed.

Lemma extract_writes_only_bronze_witness :
  <[bronze_blob_name 2024 1 := JsonBlob (JArr [])]> store_with_bronze
    !! bronze_blob_name 2024 1
  = Some (JsonBlob (landed_games (always 200 (Some (JObj [])) "")))
  ∧ ∀ name, name ≠ bronze_blob_name 2024 1 →
            <[bronze_blob_name 2024 1 := JsonBlob (JArr [])]> store_with_bronze
              !! name
            = store_with_bronze !! name.
Proof.
  apply (extract_writes_only_bronze (always 200 (Some (JObj []))) "Rhythmbear1"
           2024 1 store_with_bronze _ (PyBool true)).
  reflexivity.
Defined.

(** X3: the bronze write is an overwrite.  What the blob of the batch held
    before has no influence on the outcome, and running the step again with
    the same response leaves the store it produced as it is. *)
Theorem extract_overwrites (api : string → http_outcome) (username : string)
    (year month : Z) (st : store) :
  (∀ b, extract_and_load_chess_data api username year month
          (<[bronze_blob_name year month := b]> st)
        = extract_and_load_chess_data api username year month st)
  ∧ (∀ v st1,
       extract_and_load_chess_data api username year month st = Ok (v, st1) →
       extract_and_load_chess_data api username year month st1 = Ok (v, st1)).
Proof.
  split.
  - intros b. rewrite !extract_outcome.
    destruct (api _) as [|code body]; [done|].
    destruct (code =? 200); [|by rewrite insert_insert_eq].
    destruct body as [[| | | | | |members]|]; try done.
    simpl. destruct (py_len _); [|done]. by rewrite insert_insert_eq.
  - intros v st1 Hrun. pose proof Hrun as ->%extract_store.
    revert Hrun. rewrite !extract_outcome.
    destruct (api _) as [|code body]; [done|].
    destruct (code =? 200); [|by rewrite insert_insert_eq].
    destruct body as [[| | | | | |members]|]; try done.
    simpl. destruct (py_len _); [|done]. by rewrite insert_insert_eq.
Qed.

Lemma extract_overwrites_witness :
  extract_and_load_chess_data (always 404 None) "Rhythmbear1" 2024 1
    (<[bronze_blob_name 2024 1 := JsonBlob (JArr [])]> store_with_bronze)
  = Ok (PyBool true, <[bronze_blob_name 2024 1 := JsonBlob (JArr [])]> store_with_bronze).
Proof.
  apply (proj2 (extract_overwrites (always 404 None) "Rhythmbear1" 2024 1
                  store_with_bronze) (PyBool true)).
  reflexivity.
Defined.

(** ** The parse step *)

Lemma traverse_cons {A B} (f : A → result B) (x : A) (l : list A) :
  traverse f (x :: l)
  = match f x with
    | Ok y => match traverse f l with
              | Ok ys => Ok (y :: ys)
              | Raise e => Raise e
              end
    | Raise e => Raise e
    end.
Proof. simpl. destruct (f x); [|done]. simpl. by destruct (traverse f l). Qed.

Lemma traverse_Ok {A B} (f : A → result B) (l : list A) (l' : list B) :
  traverse f l = Ok l' ↔ Forall2 (fun x y => f x = Ok y) l l'.
Proof.
  revert l'. induction l as [|x l IH]; intros l'.
  - simpl. split; [intros [= <-]; constructor|by inversion 1].
  - rewrite traverse_cons. split.
    + destruct (f x) as [y|e] eqn:Hx; [|done].
      destruct (traverse f l) as [ys|e] eqn:Hl; [|done].
      intros [= <-]. constructor; [done|]. by apply IH.
    + inversion 1 as [|? y' ? ys' Hy Hys]; subst.
      apply IH in Hys. by rewrite Hy, Hys.
Qed.

(** Two passes over a batch succeed exactly when the two steps succeed game
    by game. *)
Lemma traverse_two_passes {A B C} (f : A → result B) (g : B → result C)
    (l : list A) (l'' : list C) :
  traverse f l ≫= traverse g = Ok l''
  ↔ Forall2 (fun x z => f x ≫= g = Ok z) l l''.
Proof.
  split.
  - destruct (traverse f l) as [ys|e] eqn:Hl; [|done].
    cbn [mbind result_bind]. intros Hys.
    apply traverse_Ok in Hl. apply traverse_Ok in Hys.
    revert l'' Hys. induction Hl as [|x y l ys Hx _ IH]; intros l''.
    + inversion 1. constructor.
    + inversion 1 as [|? z ? zs Hz Hzs]; subst. constructor; [|by apply IH].
      rewrite Hx. done.
  - intros Hall.
    assert (∃ ys, Forall2 (fun x y => f x = Ok y) l ys
                  ∧ Forall2 (fun y z => g y = Ok z) ys l'') as (ys & H1 & H2).
    { induction Hall as [|x z l l'' Hxz _ (ys & H1 & H2)].
      - exists []. split; constructor.
      - destruct (f x) as [y|e] eqn:Hx; [|done].
        exists (y :: ys). split; by constructor. }
    apply traverse_Ok in H1. apply traverse_Ok in H2. by rewrite H1.
Qed.

Lemma transform_game_columns g s :
  transform_game g = Ok s →
  Silver.game_url s = Raw.url g
  ∧ Silver.time_control s = Raw.time_control g
  ∧ Silver.time_class s = Raw.time_class g
  ∧ Silver.white_result s = Raw.result (Raw.white g)
  ∧ Silver.black_result s = Raw.result (Raw.black g).
Proof.
  unfold transform_game.
  destruct (select_silver g) as [q|] eqn:Hq; [|done]. simpl.
  unfold rebuild_timestamps.
  destruct (to_datetime (Silver.game_date q) _); cbn [mbind result_bind];
    [|done].
  destruct (to_datetime (Silver.end_game_date q) _); cbn [mbind result_bind];
    [|done].
  intros [= <-]. revert Hq. split_select_silver H1 H2 H3 H4; try done.
  by intros [= <-].
Qed.

(** X4: the transform of a batch succeeds exactly when the bronze blob of
    the batch is JSON the engine can read and every game of it transforms;
    it then writes, under the silver name it returns, one row per game in
    the order of the games, each the transform of its own game, so that the
    URL column of the silver table is the URL column of the batch. *)
Theorem transform_succeeds_iff (E : env) (year month : Z) (st st' : store)
    (name : string) :
  (transform_json_to_fact_table E year month st = Ok (name, st')
   ↔ name = silver_blob_name year month
     ∧ ∃ j games fct,
         st !! bronze_blob_name year month = Some (JsonBlob j)
         ∧ read_json E j = Ok games
         ∧ Forall2 (fun g s => transform_game g = Ok s) games fct
         ∧ st' = <[silver_blob_name year month := SilverBlob fct]> st)
  ∧ (∀ games fct,
       Forall2 (fun g s => transform_game g = Ok s) games fct →
       length fct = length games
       ∧ Silver.game_url <$> fct = Raw.url <$> games).
Proof.
  split.
  - unfold transform_json_to_fact_table, load_file.
    destruct (st !! bronze_blob_name year month) as [[j| | | | | |]|] eqn:Hb;
      try (split; [done|by intros (_ & ? & ? & ? & [= ] & _)]).
    destruct (read_json E j) as [games|e] eqn:Hj; simpl.
    2: { split; [done|]. intros (_ & ? & ? & ? & [= <-] & ? & _). congruence. }
    pose proof (traverse_two_passes select_silver rebuild_timestamps games)
      as Htwo.
    destruct (traverse select_silver games) as [qs|e] eqn:Hqs; simpl in *.
    + destruct (traverse rebuild_timestamps qs) as [fct|e] eqn:Hfct; simpl.
      * split.
        -- intros [= <- <-]. split; [done|]. exists j, games, fct.
           split_and!; try done. by apply Htwo.
        -- intros (-> & j' & games' & fct' & [= <-] & Hg & Hall & ->).
           rewrite Hj in Hg. injection Hg as <-.
           apply Htwo in Hall. by injection Hall as <-.
      * split; [done|].
        intros (-> & j' & games' & fct' & [= <-] & Hg & Hall & ->).
        rewrite Hj in Hg. injection Hg as <-. by apply Htwo in Hall.
    + split; [done|].
      intros (-> & j' & games' & fct' & [= <-] & Hg & Hall & ->).
      rewrite Hj in Hg. injection Hg as <-. by apply Htwo in Hall.
  - intros games fct Hall. split; [symmetry; by eapply Forall2_length|].
    induction Hall as [|g s games fct Hgs _ IH]; [done|].
    rewrite !fmap_cons, IH. f_equal.
    by apply transform_game_columns in Hgs as [? _].
Qed.

Lemma transform_succeeds_iff_witness :
  length silver_batch = length [game_1; game_2]
  ∧ Silver.game_url <$> silver_batch = Raw.url <$> [game_1; game_2].
Proof.
  apply (proj2 (transform_succeeds_iff sample_env 2024 1 ∅ ∅ "")
           [game_1; game_2] silver_batch).
  apply traverse_Ok. reflexivity.
Defined.

Lemma rebuild_timestamps_error q e :
  rebuild_timestamps q = Raise e → e = ValueError.
Proof.
  assert (∀ d t e', to_datetime d t = Raise e' → e' = ValueError) as Hdt.
  { intros [d|] [t|] e'; unfold to_datetime; try congruence.
    case_match; congruence. }
  unfold rebuild_timestamps.
  destruct (to_datetime (Silver.game_date q) _) eqn:H1;
    cbn [mbind result_bind]; [|intros [= <-]; eauto].
  destruct (to_datetime (Silver.end_game_date q) _) eqn:H2;
    cbn [mbind result_bind]; [done|intros [= <-]; eauto].
Qed.

(** X5: a batch is transformed as a whole or not at all.  When the bronze
    blob is read, one game whose SELECT raises makes the step raise the
    error of the query engine, wherever the game stands in the batch and
    whatever the other games are; when every SELECT succeeds, one game whose
    timestamps cannot be rebuilt makes the step raise the error of the
    data-frame code.  In both cases nothing is written. *)
Theorem transform_all_or_nothing (E : env) (year month : Z) (st : store)
    (j : json) (games : list Raw.game) :
  st !! bronze_blob_name year month = Some (JsonBlob j) →
  read_json E j = Ok games →
  (∀ g e, g ∈ games → select_silver g = Raise e →
     transform_json_to_fact_table E year month st = Raise InvalidInputError)
  ∧ (∀ g e, Forall (fun g' => ∃ q, select_silver g' = Ok q) games →
       g ∈ games → transform_game g = Raise e →
       transform_json_to_fact_table E year month st = Raise ValueError).
Proof.
  intros Hb Hj. unfold transform_json_to_fact_table. rewrite Hb, Hj.
  cbn [mbind result_bind]. split.
  - intros g e Hg Hsel.
    pose proof (select_silver_error _ _ Hsel) as ->.
    by rewrite (traverse_raise _ _ _ _ Hg Hsel select_silver_error).
  - intros g e Hall Hg Hgame.
    assert (∃ qs, Forall2 (fun g' q => select_silver g' = Ok q) games qs)
      as [qs Hqs].
    { clear -Hall. induction Hall as [|g' games [q Hq] _ [qs IH]].
      - exists []. constructor.
      - exists (q :: qs). by constructor. }
    pose proof Hqs as ->%traverse_Ok. cbn [mbind result_bind].
    apply list_elem_of_lookup in Hg as [i Hi].
    destruct (Forall2_lookup_l _ _ _ _ _ Hqs Hi) as (q & Hq & Hsel).
    unfold transform_game in Hgame. rewrite Hsel in Hgame.
    cbn [mbind result_bind] in Hgame.
    pose proof (rebuild_timestamps_error _ _ Hgame) as ->.
    rewrite (traverse_raise rebuild_timestamps ValueError qs q); [done| |done|].
    + by eapply list_elem_of_lookup_2.
    + apply rebuild_timestamps_error.
Qed.

Lemma transform_all_or_nothing_witness :
  transform_json_to_fact_table (env_reading [game_1; game_of_year_3000])
    2024 1 store_with_bronze = Raise ValueError
  ∧ transform_json_to_fact_table
      (env_reading [game_of_year_3000; game_without_date; game_1])
      2024 1 store_with_bronze = Raise InvalidInputError.
Proof.
  split.
  - apply (proj2 (transform_all_or_nothing
                    (env_reading [game_1; game_of_year_3000]) 2024 1
                    store_with_bronze _ _ eq_refl eq_refl)
             game_of_year_3000 ValueError).
    + repeat constructor; eexists; vm_compute; reflexivity.
    + apply list_elem_of_lookup. by exists 1%nat.
    + vm_compute. reflexivity.
  - apply (proj1 (transform_all_or_nothing
                    (env_reading [game_of_year_3000; game_without_date; game_1])
                    2024 1 store_with_bronze _ _ eq_refl eq_refl)
             game_without_date InvalidInputError).
    + apply list_elem_of_lookup. by exists 1%nat.
    + vm_compute. reflexivity.
Defined.

(** ** Text extraction *)

Lemma occurs_nil (p : string) : p ≠ "" → ¬ Text.occurs p "".
Proof.
  intros Hp ([|c a] & b & Heq); [|done].
  rewrite TextFacts.app_nil_l in Heq. by destruct p.
Qed.

Lemma occurs_char_cons (x c : ascii) (s : string) :
  Text.occurs (String x "") (String c s) → x = c ∨ Text.occurs (String x "") s.
Proof.
  intros ([|c' a] & b & Heq).
  - left. rewrite TextFacts.app_nil_l in Heq. by injection Heq as -> _.
  - right. rewrite TextFacts.app_cons in Heq. injection Heq as _ ->.
    by exists a, b.
Qed.

Lemma occurs_char_app (x : ascii) (s1 s2 : string) :
  Text.occurs (String x "") (s1 +:+ s2) →
  Text.occurs (String x "") s1 ∨ Text.occurs (String x "") s2.
Proof.
  induction s1 as [|c s1 IH]; [by right|].
  rewrite TextFacts.app_cons. intros [->|H]%occurs_char_cons.
  - left. by exists "", s1.
  - destruct (IH H) as [H1|H2]; [left|by right].
    by apply TextFacts.occurs_cons.
Qed.

Lemma app_nil_r (s : string) : s +:+ "" = s.
Proof. induction s as [|c s IH]; [done|]. by rewrite TextFacts.app_cons, IH. Qed.

(** Two ways of cutting one text: one of the first parts extends the
    other. *)
Lemma app_eq_app (x y p r : string) :
  x +:+ y = p +:+ r →
  (∃ z, x = p +:+ z ∧ r = z +:+ y) ∨ (∃ z, p = x +:+ z ∧ y = z +:+ r).
Proof.
  revert p. induction x as [|c x IH]; intros p.
  - rewrite TextFacts.app_nil_l. intros ->. right. by exists p.
  - destruct p as [|c' p].
    + rewrite TextFacts.app_nil_l. intros <-. left. by exists (String c x).
    + rewrite !TextFacts.app_cons. intros [= -> H].
      destruct (IH _ H) as [(z & -> & ->)|(z & -> & ->)].
      * left. by exists z.
      * right. by exists z.
Qed.

(** What the lazy group captures: the text is the captured run, the suffix
    and the rest, and the run holds no newline. *)
Lemma lazy_until_Some (suf s cap rest : string) :
  Text.lazy_until suf s = Some (cap, rest) →
  s = cap +:+ suf +:+ rest ∧ ¬ Text.occurs (String newline "") cap.
Proof.
  revert cap. induction s as [|c s IH]; intros cap; simpl.
  - destruct (Text.starts_with suf "") as [r|] eqn:Hs; [|done].
    intros [= <- <-]. rewrite TextFacts.app_nil_l.
    split; [by apply TextFacts.starts_with_Some|]. by apply occurs_nil.
  - destruct (Text.starts_with suf (String c s)) as [r|] eqn:Hs.
    + intros [= <- <-]. rewrite TextFacts.app_nil_l.
      split; [by apply TextFacts.starts_with_Some|]. by apply occurs_nil.
    + destruct (decide (c = newline)) as [|Hc]; [done|].
      destruct (Text.lazy_until suf s) as [[cap' rest']|]; [|done].
      simpl. intros [= <- <-]. destruct (IH cap' eq_refl) as [-> Hnl].
      split; [done|]. by intros [?|?]%occurs_char_cons.
Qed.


Lemma regexp_find_cons (pre suf : string) (c : ascii) (s : string) :
  Text.regexp_find pre suf (String c s)
  = match Text.match_here pre suf (String c s) with
    | Some r => Some r
    | None => Text.regexp_find pre suf s
    end.
Proof. reflexivity. Qed.

(** A match cuts the text into what precedes it, the literal prefix, the
    captured run, the literal suffix and what follows. *)
Lemma regexp_find_Some (pre suf s cap rest : string) :
  Text.regexp_find pre suf s = Some (cap, rest) →
  (∃ a, s = a +:+ pre +:+ cap +:+ suf +:+ rest)
  ∧ Text.lazy_until suf (cap +:+ suf +:+ rest) = Some (cap, rest).
Proof.
  assert (∀ t, Text.match_here pre suf t = Some (cap, rest) →
               t = pre +:+ cap +:+ suf +:+ rest
               ∧ Text.lazy_until suf (cap +:+ suf +:+ rest) = Some (cap, rest))
    as Hhere.
  { intros t. unfold Text.match_here.
    destruct (Text.starts_with pre t) as [r|] eqn:Hp; [|done]. simpl.
    intros Hl. apply TextFacts.starts_with_Some in Hp as ->.
    pose proof Hl as [-> _]%lazy_until_Some. done. }
  induction s as [|c s IH].
  - simpl. destruct (Text.match_here pre suf "") as [r|] eqn:Hm; [|done].
    intros [= ->]. apply Hhere in Hm as [-> ?]. split; [by exists ""|done].
  - rewrite regexp_find_cons.
    destruct (Text.match_here pre suf (String c s)) as [r|] eqn:Hm.
    + intros [= ->]. apply Hhere in Hm as [-> ?]. split; [by exists ""|done].
    + intros [[a ->] ?]%IH. split; [by exists (String c a)|done].
Qed.


Lemma lazy_until_app (d : ascii) (v b : string) :
  ¬ Text.occurs (String d "") v → ¬ Text.occurs (String newline "") v →
  Text.lazy_until (String d "") (v +:+ String d b) = Some (v, b).
Proof.
  induction v as [|c v IH]; intros Hd Hnl.
  - rewrite TextFacts.app_nil_l. simpl. by rewrite decide_True.
  - rewrite TextFacts.app_cons. simpl.
    rewrite decide_False, decide_False.
    + rewrite IH; [done| |].
      * intros H. apply Hd. by apply TextFacts.occurs_cons.
      * intros H. apply Hnl. by apply TextFacts.occurs_cons.
    + intros ->. apply Hnl. by exists "", v.
    + intros ->. apply Hd. by exists "", v.
Qed.

(** The search skips every position at which the literal prefix does not
    start. *)
Lemma regexp_find_skip (pre suf a t : string) r :
  (∀ a1 a2, a = a1 +:+ a2 → a2 ≠ "" → Text.starts_with pre (a2 +:+ t) = None) →
  Text.match_here pre suf t = Some r →
  Text.regexp_find pre suf (a +:+ t) = Some r.
Proof.
  intros Hskip Hhere. induction a as [|c a IH].
  - rewrite TextFacts.app_nil_l. destruct t; simpl; by rewrite Hhere.
  - rewrite TextFacts.app_cons, regexp_find_cons. unfold Text.match_here.
    rewrite <- TextFacts.app_cons, (Hskip "" (String c a)) by done. simpl.
    apply IH. intros a1 a2 -> Ha2. by apply (Hskip (String c a1) a2).
Qed.

(** A prefix that holds its first character only once cannot start inside
    an occurrence of itself. *)
Lemma no_early_start (o : ascii) (p a tail : string) :
  ¬ Text.occurs (String o "") p →
  ¬ Text.occurs (String o p) a →
  ∀ a1 a2, a = a1 +:+ a2 → a2 ≠ "" →
    Text.starts_with (String o p) (a2 +:+ String o p +:+ tail) = None.
Proof.
  intros Hp Ha a1 a2 -> Ha2.
  destruct (Text.starts_with _ _) as [r|] eqn:Hs; [|done]. exfalso.
  apply TextFacts.starts_with_Some in Hs.
  destruct a2 as [|c a2]; [done|].
  rewrite !TextFacts.app_cons in Hs. injection Hs as -> Hs.
  apply app_eq_app in Hs as [(z & -> & _)|(z & -> & Hz)].
  - apply Ha. exists a1, z. by rewrite <- TextFacts.app_cons.
  - destruct z as [|c z].
    + apply Ha. exists a1, "". by rewrite !app_nil_r.
    + rewrite TextFacts.app_cons in Hz. injection Hz as <- _.
      apply Hp. by exists a2, z.
Qed.

(** X7: the tag extraction reads the first line of its tag.  For a tag name
    without an opening bracket, in a PGN text where no line of the tag stands
    before, the extraction returns the value written on the line, provided
    the value holds neither a double quote nor a newline; what follows the
    line, a second line of the same tag included, has no influence. *)
Theorem tag_reads_first_line (name v a b : string) :
  ¬ Text.occurs "[" name →
  ¬ Text.occurs (tag_opening name) a →
  ¬ Text.occurs (String dquote "") v →
  ¬ Text.occurs (String newline "") v →
  tag name (a +:+ tag_opening name +:+ v +:+ String dquote b) = v.
Proof.
  intros Hname Ha Hdq Hnl. unfold tag, Text.regexp_extract.
  rewrite (regexp_find_skip _ _ a _ (v, b)); [done| |].
  - change (tag_opening name) with (String "[" (name +:+ " " +:+ String dquote ""))
      in *.
    apply no_early_start; [|done].
    intros [H|H]%occurs_char_app; [done|].
    apply TextFacts.contains_occurs in H. done.
  - unfold Text.match_here. rewrite TextFacts.starts_with_app. simpl.
    by apply lazy_until_app.
Qed.

Lemma tag_reads_first_line_witness :
  tag "Date"
    ((pgn_tag "Event" "Live Chess" +:+ pgn_tag "Site" "Chess.com") +:+
     tag_opening "Date" +:+ "2024.01.31" +:+
     String dquote ("]" +:+ String newline (pgn_tag "Date" "1999.12.31")))
  = "2024.01.31".
Proof.
  apply (tag_reads_first_line "Date" "2024.01.31"
           (pgn_tag "Event" "Live Chess" +:+ pgn_tag "Site" "Chess.com"));
    apply TextFacts.not_contains_not_occurs; vm_compute; reflexivity.
Defined.

Lemma occurs_app_r (p x s : string) : Text.occurs p s → Text.occurs p (x +:+ s).
Proof.
  intros H. induction x as [|c x IH]; [done|].
  rewrite TextFacts.app_cons. by apply TextFacts.occurs_cons.
Qed.

Lemma regexp_find_no_suffix (pre suf s : string) :
  ¬ Text.occurs suf s → Text.regexp_find pre suf s = None.
Proof.
  intros Hno. destruct (Text.regexp_find pre suf s) as [[cap rest]|] eqn:Hf;
    [|done].
  apply regexp_find_Some in Hf as [[a ->] _]. destruct Hno.
  do 2 apply occurs_app_r. by exists cap, rest.
Qed.

Lemma regexp_extract_all_go_sound (n : nat) (pre suf s t : string) :
  t ∈ Text.regexp_extract_all_go n pre suf s →
  Text.occurs (pre +:+ t +:+ suf) s ∧ ¬ Text.occurs (String newline "") t.
Proof.
  revert s. induction n as [|n IH]; intros s; simpl.
  - by intros ?%elem_of_nil.
  - destruct (Text.regexp_find pre suf s) as [[cap rest]|] eqn:Hf;
      [|by intros ?%elem_of_nil].
    apply regexp_find_Some in Hf as [[a ->] Hlazy].
    intros [->|Ht]%elem_of_cons.
    + split; [|by apply lazy_until_Some in Hlazy as [_ ?]].
      exists a, rest. by rewrite !TextFacts.app_assoc.
    + destruct (IH _ Ht) as [Hocc ?]. split; [|done].
      by do 4 apply occurs_app_r.
Qed.

(** X8: the move tokens of a PGN text.  Each token stands in the text
    between a full stop followed by a blank and a blank followed by an
    opening brace and bracket, and holds no newline.  A text without a
    clock comment, or without a move number, has no token at all: both
    [pgn_raw] and the argument of [add_move_numbers] are then empty. *)
Theorem move_tokens_sound (pgn : string) :
  (∀ t, t ∈ move_tokens pgn →
     Text.occurs (". " +:+ t +:+ " {[") pgn
     ∧ ¬ Text.occurs (String newline "") t)
  ∧ (¬ Text.occurs " {[" pgn ∨ ¬ Text.occurs ". " pgn →
     move_tokens pgn = [] ∧ Text.join " " (move_tokens pgn) = "").
Proof.
  split.
  - intros t. apply regexp_extract_all_go_sound.
  - unfold move_tokens, Text.regexp_extract_all.
    intros [H|H]; cbn [Text.regexp_extract_all_go].
    + by rewrite regexp_find_no_suffix.
    + by rewrite TextFacts.regexp_find_absent.
Qed.

(** ** Dates and timestamps of the silver rows *)

Lemma strptime_date_Ok s d :
  Strptime.strptime_date s = Ok d → Calendar.valid_date d = true.
Proof.
  unfold Strptime.strptime_date.
  destruct (Strptime.three_numbers _ _ _ _ s) as [[[y m] dd]|]; [|done].
  destruct (Calendar.valid_date _) eqn:Hv; [|done]. by intros [= <-].
Qed.

Lemma strptime_time_Ok s t :
  Strptime.strptime_time s = Ok t → Calendar.valid_time t = true.
Proof.
  unfold Strptime.strptime_time.
  destruct (Strptime.three_numbers _ _ _ _ s) as [[[h m] sec]|]; [|done].
  destruct (Calendar.valid_time _) eqn:Hv; [|done]. by intros [= <-].
Qed.

Lemma to_datetime_Ok d t r :
  to_datetime d t = Ok r →
  ∃ d' t', d = Some d' ∧ t = Some t'
    ∧ r = Some (Calendar.timestamp_of d' t')
    ∧ - 2 ^ 63 < Calendar.timestamp_of d' t' * 10 ^ 9 < 2 ^ 63.
Proof.
  destruct d as [d'|], t as [t'|]; simpl; try done.
  destruct (Z.ltb_spec (- 2 ^ 63) (Calendar.timestamp_of d' t' * 10 ^ 9));
    [|done].
  destruct (Z.ltb_spec (Calendar.timestamp_of d' t' * 10 ^ 9) (2 ^ 63));
    [|done].
  simpl. intros [= <-]. exists d', t'. split_and!; done.
Qed.

(** The years pandas holds as nanosecond timestamps. *)
Lemma timestamp_year_range d t :
  Calendar.valid_date d = true → Calendar.valid_time t = true →
  - 2 ^ 63 < Calendar.timestamp_of d t * 10 ^ 9 < 2 ^ 63 →
  1677 ≤ Calendar.year d ≤ 2262.
Proof.
  intros [Hm Hd]%CalendarFacts.valid_date_bounds Ht. destruct d as [y m dd].
  simpl in Hm, Hd.
  pose proof (CalendarFacts.day_of_year_range y m dd Hm Hd) as Hdoy.
  assert (0 ≤ Calendar.seconds_of_time t < 86400).
  { unfold Calendar.valid_time in Ht. rewrite !andb_true_iff in Ht.
    unfold Calendar.seconds_of_time. lia. }
  assert (1 ≤ Calendar.days_before_month y m + dd ≤ 366)
    by (destruct (Calendar.is_leap y); lia).
  unfold Calendar.timestamp_of, Calendar.epoch_days, Calendar.days_before_year.
  simpl. intros Hr. Z.div_mod_to_equations. lia.
Qed.

(** X9: the date and time columns of a silver row are never NULL.  A game
    that is transformed has a valid start date and a valid end date, both in
    the years 1677 to 2262 that pandas holds as timestamps; its start
    timestamp is that of its start date at its start time, its end timestamp
    that of its end date at its end time; and the duration the fact row
    gives it is the number of days between the two dates, in seconds, plus
    the difference of the two times of day. *)
Theorem silver_row_timestamps (E : env) (exec_date : Z) (g : Raw.game)
    (s : Silver.row Z) :
  transform_game g = Ok s →
  ∃ d1 t1 d2 t2,
    Strptime.strptime_date (Text.replace "." "/" (tag "Date" (Raw.pgn g)))
      = Ok d1
    ∧ Strptime.strptime_time (tag "StartTime" (Raw.pgn g)) = Ok t1
    ∧ Strptime.strptime_date (Text.replace "." "/" (tag "EndDate" (Raw.pgn g)))
      = Ok d2
    ∧ Strptime.strptime_time (tag "EndTime" (Raw.pgn g)) = Ok t2
    ∧ Silver.game_date s = Some d1
    ∧ Silver.end_game_date s = Some d2
    ∧ Silver.start_time s = Some (Calendar.timestamp_of d1 t1)
    ∧ Silver.end_time s = Some (Calendar.timestamp_of d2 t2)
    ∧ Calendar.valid_date d1 = true ∧ Calendar.valid_date d2 = true
    ∧ 1677 ≤ Calendar.year d1 ≤ 2262 ∧ 1677 ≤ Calendar.year d2 ≤ 2262
    ∧ Fact.game_duration_secs (fct_row E exec_date s)
      = Some ((Calendar.epoch_days d2 - Calendar.epoch_days d1) * 86400
              + (Calendar.seconds_of_time t2 - Calendar.seconds_of_time t1)).
Proof.
  unfold transform_game.
  destruct (select_silver g) as [q|] eqn:Hq; [|done].
  cbn [mbind result_bind]. unfold rebuild_timestamps.
  destruct (to_datetime (Silver.game_date q) _) as [r1|] eqn:Hr1;
    cbn [mbind result_bind]; [|done].
  destruct (to_datetime (Silver.end_game_date q) _) as [r2|] eqn:Hr2;
    cbn [mbind result_bind]; [|done].
  intros [= <-]. revert Hq. split_select_silver H1 H2 H3 H4; try done.
  intros [= <-].
  cbn [Silver.game_date Silver.start_time Silver.end_game_date Silver.end_time]
    in Hr1, Hr2.
  apply to_datetime_Ok in Hr1 as (d1 & t1 & [= ->] & [= ->] & -> & Hb1).
  apply to_datetime_Ok in Hr2 as (d2 & t2 & [= ->] & [= ->] & -> & Hb2).
  pose proof (strptime_date_Ok _ _ H1) as Hv1.
  pose proof (strptime_date_Ok _ _ H4) as Hv2.
  pose proof (strptime_time_Ok _ _ H2) as Hv3.
  pose proof (strptime_time_Ok _ _ H3) as Hv4.
  pose proof (timestamp_year_range d1 t1 Hv1 Hv3 Hb1).
  pose proof (timestamp_year_range d2 t2 Hv2 Hv4 Hb2).
  exists d1, t1, d2, t2. split_and!; try done; try lia.
  unfold duration_secs, Calendar.date_diff_seconds, Calendar.timestamp_of.
  f_equal. lia.
Qed.

Lemma silver_row_timestamps_witness :
  ∃ s d1 t1 d2 t2,
    transform_game game_1 = Ok s
    ∧ Silver.start_time s = Some (Calendar.timestamp_of d1 t1)
    ∧ Silver.end_time s = Some (Calendar.timestamp_of d2 t2)
    ∧ Fact.game_duration_secs (fct_row sample_env 0 s)
      = Some ((Calendar.epoch_days d2 - Calendar.epoch_days d1) * 86400
              + (Calendar.seconds_of_time t2 - Calendar.seconds_of_time t1)).
Proof.
  destruct (transform_game game_1) as [s|] eqn:Hs; [|by vm_compute in Hs].
  destruct (silver_row_timestamps sample_env 0 game_1 s Hs)
    as (d1 & t1 & d2 & t2 & _ & _ & _ & _ & _ & _ & ? & ? & _ & _ & _ & _ & ?).
  by exists s, d1, t1, d2, t2.
Defined.

(** ** The dimension merges *)

Section MergeKeys.
Context {S R K : Type} `{EqDecision R} `{EqDecision K}.
Variables (raw_key : S → option K) (select : S → R) (key : R → option K).

(** A NULL among the stored keys makes NOT IN unknown for every row of the
    batch: the merge returns the stored rows, without duplicates. *)
Lemma merge_shape_null_key source destination :
  None ∈ key <$> destination →
  merge_shape raw_key select key source destination = remove_dups destination.
Proof.
  intros Hnull. unfold merge_shape.
  rewrite SqlFacts.where_nil; [done|].
  intros s _ [Hnil|(k & _ & _ & Hnone)]%SqlFacts.not_in_true; [|done].
  rewrite Hnil in Hnull. by apply elem_of_nil in Hnull.
Qed.

(** Without a NULL among the stored keys, every key of the batch that is
    not NULL is a key of the merged table, and the merged table has no NULL
    key when the batch has none. *)
Lemma merge_shape_complete source destination :
  (∀ s, key (select s) = raw_key s) →
  None ∉ key <$> destination →
  (∀ s, s ∈ source → raw_key s ≠ None →
        raw_key s ∈ key <$> merge_shape raw_key select key source destination)
  ∧ ((∀ s, s ∈ source → raw_key s ≠ None) →
     None ∉ key <$> merge_shape raw_key select key source destination).
Proof.
  intros Hkey Hnone. split.
  - intros s Hs Hsome. destruct (raw_key s) as [k|] eqn:Hk; [|done].
    destruct (decide (Some k ∈ key <$> destination)) as [Hin|Hnotin].
    + apply list_elem_of_fmap in Hin as (r & -> & Hr).
      apply list_elem_of_fmap_2. apply elem_of_merge_shape. by left.
    + rewrite <- Hk, <- Hkey. apply list_elem_of_fmap_2.
      apply elem_of_merge_shape. right. exists s. split_and!; [done..|].
      right. exists k. by rewrite Hk.
  - intros Hall (r & Hr & [?|(s & Hs & -> & _)]%elem_of_merge_shape)%list_elem_of_fmap.
    + apply Hnone. rewrite Hr. by apply list_elem_of_fmap_2.
    + rewrite Hkey in Hr. by eapply Hall.
Qed.
End MergeKeys.

(** X10: a NULL key freezes a dimension.  When a stored snapshot of the
    openings, the date or the time-control dimension holds a row whose key
    is NULL, the merge adds no row of the batch, whatever the batch holds:
    the new snapshot is the stored one without its duplicate rows. *)
Theorem null_key_freezes_dimension (E : env) (source : Silver.t) :
  (∀ destination,
     None ∈ DimOpenings.pgn_eco_url <$> destination →
     dim_openings_merge E source destination = remove_dups destination)
  ∧ (∀ destination,
       None ∈ DimDate.game_date <$> destination →
       dim_date_merge source destination = remove_dups destination)
  ∧ (∀ destination,
       None ∈ DimTimeControl.time_control <$> destination →
       dim_time_control_merge E source destination = remove_dups destination).
Proof.
  split_and!; intros destination Hnull.
  - rewrite dim_openings_merge_shape. by apply merge_shape_null_key.
  - rewrite dim_date_merge_shape. by apply merge_shape_null_key.
  - rewrite dim_time_control_merge_shape. by apply merge_shape_null_key.
Qed.

Lemma null_key_freezes_dimension_witness :
  dim_time_control_merge sample_env silver_batch
    (dim_time_control_initial sample_env [silver_row_without_time_control])
  = dim_time_control_initial sample_env [silver_row_without_time_control].
Proof.
  apply (proj2 (proj2 (null_key_freezes_dimension sample_env silver_batch))
           (dim_time_control_initial sample_env
              [silver_row_without_time_control])).
  apply list_elem_of_here.
Defined.

Lemma transform_game_keys g s :
  transform_game g = Ok s →
  Silver.pgn_eco_url s ≠ None ∧ Silver.game_date s ≠ None.
Proof.
  unfold transform_game.
  destruct (select_silver g) as [q|] eqn:Hq; [|done].
  cbn [mbind result_bind]. unfold rebuild_timestamps.
  destruct (to_datetime (Silver.game_date q) _); cbn [mbind result_bind];
    [|done].
  destruct (to_datetime (Silver.end_game_date q) _); cbn [mbind result_bind];
    [|done].
  intros [= <-]. revert Hq. split_select_silver H1 H2 H3 H4; try done.
  by intros [= <-].
Qed.

(** X11: the openings and date merges are complete on transformed batches.
    For a silver table the transform produced, merged into a stored snapshot
    without NULL key, every game's opening URL is a key of the new openings
    snapshot and every game's date a key of the new date snapshot; neither
    new snapshot has a NULL key, so the next merge is complete as well. *)
Theorem dimension_merge_complete (E : env) (games : list Raw.game)
    (source : Silver.t) :
  Forall2 (fun g s => transform_game g = Ok s) games source →
  (∀ destination,
     None ∉ DimOpenings.pgn_eco_url <$> destination →
     (∀ s, s ∈ source →
           Silver.pgn_eco_url s
           ∈ DimOpenings.pgn_eco_url <$> dim_openings_merge E source destination)
     ∧ None ∉ DimOpenings.pgn_eco_url
                <$> dim_openings_merge E source destination)
  ∧ (∀ destination,
       None ∉ DimDate.game_date <$> destination →
       (∀ s, s ∈ source →
             Silver.game_date s
             ∈ DimDate.game_date <$> dim_date_merge source destination)
       ∧ None ∉ DimDate.game_date <$> dim_date_merge source destination).
Proof.
  intros Hall.
  assert (∀ s, s ∈ source →
               Silver.pgn_eco_url s ≠ None ∧ Silver.game_date s ≠ None)
    as Hkeys.
  { intros s (i & Hi)%list_elem_of_lookup.
    destruct (Forall2_lookup_r _ _ _ _ _ Hall Hi) as (g & _ & Hg).
    by eapply transform_game_keys. }
  split; intros destination Hnone.
  - rewrite dim_openings_merge_shape.
    destruct (merge_shape_complete Silver.pgn_eco_url (opening_row E)
                DimOpenings.pgn_eco_url source destination) as [H1 H2];
      [done..|].
    split; [|apply H2]; intros s Hs; [apply H1; [done|]|]; by apply Hkeys.
  - rewrite dim_date_merge_shape.
    destruct (merge_shape_complete Silver.game_date date_row
                DimDate.game_date source destination) as [H1 H2]; [done..|].
    split; [|apply H2]; intros s Hs; [apply H1; [done|]|]; by apply Hkeys.
Qed.

Lemma dimension_merge_complete_witness :
  Forall (fun s => Silver.game_date s
                   ∈ DimDate.game_date <$> dim_date_merge silver_batch [])
    silver_batch.
Proof.
  apply Forall_forall.
  apply (proj2 (dimension_merge_complete sample_env [game_1; game_2]
                  silver_batch ltac:(apply traverse_Ok; reflexivity)) []).
  by intros ?%elem_of_nil.
Defined.

(** ** ORDER BY *)

Section OrderBy.
Context {A : Type} (le : A → A → bool).
Hypothesis le_total : ∀ a b, le a b = false → le b a = true.
Hypothesis le_trans : ∀ a b c, le a b = true → le b c = true → le a c = true.

Lemma insert_by_Permutation (x : A) (l : list A) :
  Sql.insert_by le x l ≡ₚ x :: l.
Proof.
  induction l as [|y l IH]; [done|]. simpl.
  destruct (le x y); [done|]. rewrite IH. apply Permutation_swap.
Qed.

Lemma order_by_Permutation (t : list A) : Sql.order_by le t ≡ₚ t.
Proof.
  induction t as [|x t IH]; [done|].
  unfold Sql.order_by in *. simpl. by rewrite insert_by_Permutation, IH.
Qed.

Lemma insert_by_Sorted (x : A) (l : list A) :
  Sorted (fun a b => le a b = true) l →
  Sorted (fun a b => le a b = true) (Sql.insert_by le x l).
Proof.
  induction 1 as [|y l Hl IH Hhd]; simpl; [by repeat constructor|].
  destruct (le x y) eqn:Hxy.
  - constructor; [by constructor|by constructor].
  - constructor; [done|].
    destruct Hhd as [|z l' Hyz]; simpl.
    + constructor. by apply le_total.
    + destruct (le x z); constructor; [by apply le_total|done].
Qed.

Lemma order_by_StronglySorted (t : list A) :
  StronglySorted (fun a b => le a b = true) (Sql.order_by le t).
Proof.
  apply Sorted_StronglySorted; [intros a b c; apply le_trans|].
  induction t as [|x t IH]; [constructor|].
  unfold Sql.order_by in *. simpl. by apply insert_by_Sorted.
Qed.
End OrderBy.

Lemma date_le_total (a b : DimDate.row) : date_le a b = false → date_le b a = true.
Proof.
  unfold date_le.
  destruct (DimDate.game_date a), (DimDate.game_date b); try done. lia.
Qed.

Lemma date_le_trans (a b c : DimDate.row) :
  date_le a b = true → date_le b c = true → date_le a c = true.
Proof.
  unfold date_le.
  destruct (DimDate.game_date a), (DimDate.game_date b),
    (DimDate.game_date c); try done. lia.
Qed.

(** X12: the first snapshot of the date dimension is in date order.  It
    holds the date rows of the batch, each once, by ascending date with a
    NULL date last; and on a transformed batch it holds exactly one row for
    each date of the batch. *)
Theorem dim_date_initial_sorted (source : Silver.t) :
  StronglySorted (fun a b => date_le a b = true) (dim_date_initial source)
  ∧ NoDup (dim_date_initial source)
  ∧ (∀ r, r ∈ dim_date_initial source ↔ r ∈ date_row <$> source)
  ∧ NoDup (DimDate.game_date <$> dim_date_initial source).
Proof.
  assert (dim_date_initial source ≡ₚ remove_dups (date_row <$> source)) as Hp
    by apply order_by_Permutation.
  split_and!.
  - apply order_by_StronglySorted; [apply date_le_total|apply date_le_trans].
  - rewrite Hp. apply NoDup_remove_dups.
  - intros r. by rewrite Hp, elem_of_remove_dups.
  - rewrite Hp. apply NoDup_fmap_2_strong; [|apply NoDup_remove_dups].
    intros r1 r2 (s1 & -> & _)%elem_of_remove_dups%list_elem_of_fmap
      (s2 & -> & _)%elem_of_remove_dups%list_elem_of_fmap Hd.
    unfold date_row in *. simpl in Hd. by rewrite Hd.
Qed.

(** ** Repeated dimension loads *)

(** What a successful [load_dim_date] has read and written. *)
Lemma load_dim_date_inv filename st st1 :
  load_dim_date filename st = Ok st1 →
  ∃ source cur,
    st !! filename = Some (SilverBlob source)
    ∧ filename ≠ dim_date_file
    ∧ st1 = <[dim_date_file := DimDateBlob cur]> st
    ∧ ((∃ destination,
          st !! dim_date_file = Some (DimDateBlob destination)
          ∧ cur = dim_date_merge source destination)
       ∨ (st !! dim_date_file = None ∧ cur = dim_date_initial source)).
Proof.
  unfold load_dim_date, check_for_blob, read_silver, read_dim_date, load_file.
  destruct (st !! filename) as [[| source | | | | |]|] eqn:Hs; simpl; try done.
  destruct (st !! dim_date_file) as [b|] eqn:Hd.
  - rewrite bool_decide_eq_true_2 by eauto.
    destruct b as [| | | destination | | |]; simpl; try done.
    intros [= <-]. exists source, (dim_date_merge source destination).
    split_and!; [done|congruence|done|]. left. eauto.
  - rewrite bool_decide_eq_false_2 by (by intros [? ?]). simpl.
    intros [= <-]. exists source, (dim_date_initial source).
    split_and!; [done|congruence|done|]. by right.
Qed.

Lemma load_dim_date_existing filename st source destination :
  st !! filename = Some (SilverBlob source) →
  st !! dim_date_file = Some (DimDateBlob destination) →
  load_dim_date filename st
  = Ok (<[dim_date_file := DimDateBlob (dim_date_merge source destination)]> st).
Proof.
  intros Hs Hd. unfold load_dim_date, check_for_blob, read_silver, read_dim_date.
  by rewrite Hs, Hd.
Qed.

Lemma load_dim_time_control_inv (E : env) filename st st1 :
  load_dim_time_control E filename st = Ok st1 →
  ∃ source cur,
    st !! filename = Some (SilverBlob source)
    ∧ filename ≠ dim_time_control_file
    ∧ st1 = <[dim_time_control_file := DimTimeControlBlob cur]> st
    ∧ ((∃ destination,
          st !! dim_time_control_file = Some (DimTimeControlBlob destination)
          ∧ cur = dim_time_control_merge E source destination)
       ∨ (st !! dim_time_control_file = None
          ∧ cur = dim_time_control_initial E source)).
Proof.
  unfold load_dim_time_control, check_for_blob, read_silver,
    read_dim_time_control, load_file.
  destruct (st !! filename) as [[| source | | | | |]|] eqn:Hs; simpl; try done.
  destruct (st !! dim_time_control_file) as [b|] eqn:Hd.
  - rewrite bool_decide_eq_true_2 by eauto.
    destruct b as [| | | | destination | |]; simpl; try done.
    intros [= <-]. exists source, (dim_time_control_merge E source destination).
    split_and!; [done|congruence|done|]. left. eauto.
  - rewrite bool_decide_eq_false_2 by (by intros [? ?]). simpl.
    intros [= <-]. exists source, (dim_time_control_initial E source).
    split_and!; [done|congruence|done|]. by right.
Qed.

Lemma load_dim_time_control_existing (E : env) filename st source destination :
  st !! filename = Some (SilverBlob source) →
  st !! dim_time_control_file = Some (DimTimeControlBlob destination) →
  load_dim_time_control E filename st
  = Ok (<[dim_time_control_file :=
            DimTimeControlBlob (dim_time_control_merge E source destination)]> st).
Proof.
  intros Hs Hd.
  unfold load_dim_time_control, check_for_blob, read_silver,
    read_dim_time_control.
  by rewrite Hs, Hd.
Qed.

Lemma dim_date_merge_initial source :
  dim_date_merge source (dim_date_initial source) = dim_date_initial source.
Proof.
  assert (dim_date_initial source ≡ₚ remove_dups (date_row <$> source)) as Hp
    by apply order_by_Permutation.
  rewrite dim_date_merge_shape. apply merge_shape_absorbed.
  - rewrite Hp. apply NoDup_remove_dups.
  - intros s Hs. rewrite Hp, elem_of_remove_dups. by apply list_elem_of_fmap_2.
Qed.

(** X13: repeated loads of one batch settle.  A date load that succeeded can
    be run again on the store it left and leaves it as it is, with or
    without a snapshot before the first run.  A time-control load that
    succeeded can be run again as well; the store the second run leaves is a
    fixed point of the load, and it is already the store of the first run
    when a snapshot existed before it. *)
Theorem dimension_loads_settle (E : env) (filename : string) (st st1 : store) :
  (load_dim_date filename st = Ok st1 → load_dim_date filename st1 = Ok st1)
  ∧ (load_dim_time_control E filename st = Ok st1 →
     ∃ st2,
       load_dim_time_control E filename st1 = Ok st2
       ∧ load_dim_time_control E filename st2 = Ok st2
       ∧ (is_Some (st !! dim_time_control_file) → st2 = st1)).
Proof.
  split.
  - intros (source & cur & Hs & Hne & -> & Hcur)%load_dim_date_inv.
    assert (dim_date_merge source cur = cur) as Hidem.
    { destruct Hcur as [(destination & _ & ->)|[_ ->]].
      - apply dim_date_merge_idempotent.
      - apply dim_date_merge_initial. }
    rewrite (load_dim_date_existing filename _ source cur).
    + by rewrite Hidem, insert_insert_eq.
    + by rewrite lookup_insert_ne.
    + apply lookup_insert_eq.
  - intros (source & cur & Hs & Hne & -> & Hcur)%load_dim_time_control_inv.
    set (cur2 := dim_time_control_merge E source cur).
    exists (<[dim_time_control_file := DimTimeControlBlob cur2]> st).
    split_and!.
    + rewrite (load_dim_time_control_existing E filename _ source cur).
      * by rewrite insert_insert_eq.
      * by rewrite lookup_insert_ne.
      * apply lookup_insert_eq.
    + rewrite (load_dim_time_control_existing E filename _ source cur2).
      * unfold cur2. by rewrite dim_time_control_merge_idempotent, insert_insert_eq.
      * by rewrite lookup_insert_ne.
      * apply lookup_insert_eq.
    + intros [b Hb]. destruct Hcur as [(destination & _ & ->)|[Hnone _]].
      * unfold cur2. by rewrite dim_time_control_merge_idempotent.
      * congruence.
Qed.

Lemma dimension_loads_settle_witness :
  load_dim_date silver_file
    (<[dim_date_file := DimDateBlob (dim_date_initial silver_batch)]>
       first_run_store)
  = Ok (<[dim_date_file := DimDateBlob (dim_date_initial silver_batch)]>
          first_run_store).
Proof.
  apply (proj1 (dimension_loads_settle sample_env silver_file first_run_store
                  (<[dim_date_file := DimDateBlob (dim_date_initial silver_batch)]>
                     first_run_store))).
  apply load_dim_date_first; reflexivity.
Defined.

(** X14: every gold loader writes its own blob and nothing else.  After a
    successful run the silver table, the bronze blobs and the blobs of the
    other gold tables are as they were; the blob of the loader is a table of
    its own kind. *)
Theorem gold_loaders_write_own_blob (E : env) (filename : string)
    (exec_date : Z) (st st1 : store) :
  (load_dim_openings E filename st = Ok st1 →
   (∃ t, st1 !! dim_openings_file = Some (DimOpeningsBlob t))
   ∧ ∀ name, name ≠ dim_openings_file → st1 !! name = st !! name)
  ∧ (load_dim_date filename st = Ok st1 →
     (∃ t, st1 !! dim_date_file = Some (DimDateBlob t))
     ∧ ∀ name, name ≠ dim_date_file → st1 !! name = st !! name)
  ∧ (load_dim_time_control E filename st = Ok st1 →
     (∃ t, st1 !! dim_time_control_file = Some (DimTimeControlBlob t))
     ∧ ∀ name, name ≠ dim_time_control_file → st1 !! name = st !! name)
  ∧ (load_dim_results filename st = Ok st1 →
     (∃ t, st1 !! dim_results_file = Some (DimResultsBlob t))
     ∧ ∀ name, name ≠ dim_results_file → st1 !! name = st !! name)
  ∧ (load_fact_table E filename exec_date st = Ok st1 →
     (∃ t, st1 !! fact_file = Some (FactBlob t))
     ∧ ∀ name, name ≠ fact_file → st1 !! name = st !! name).
Proof.
  split_and!.
  - intros (source & cur & _ & _ & -> & _)%load_dim_openings_inv.
    split; [exists cur; apply lookup_insert_eq|].
    intros name Hne. by rewrite lookup_insert_ne.
  - intros (source & cur & _ & _ & -> & _)%load_dim_date_inv.
    split; [exists cur; apply lookup_insert_eq|].
    intros name Hne. by rewrite lookup_insert_ne.
  - intros (source & cur & _ & _ & -> & _)%load_dim_time_control_inv.
    split; [exists cur; apply lookup_insert_eq|].
    intros name Hne. by rewrite lookup_insert_ne.
  - unfold load_dim_results, check_for_blob, read_dim_results, load_file.
    destruct (st !! dim_results_file) as [b|] eqn:Hd.
    + rewrite bool_decide_eq_true_2 by eauto.
      destruct b as [| | | | | t |]; simpl; try done.
      intros [= <-]. split; [by exists t|done].
    + rewrite bool_decide_eq_false_2 by (by intros [? ?]). simpl.
      intros [= <-]. split; [eexists; apply lookup_insert_eq|].
      intros name Hne. by rewrite lookup_insert_ne.
  - unfold load_fact_table, load_file.
    destruct (read_silver st filename); simpl; [|done].
    destruct (read_dim_date st dim_date_file); simpl; [|done].
    destruct (read_dim_openings st dim_openings_file); simpl; [|done].
    destruct (read_dim_results st dim_results_file); simpl; [|done].
    destruct (read_dim_time_control st dim_time_control_file); simpl; [|done].
    destruct (check_for_blob st fact_file);
      [destruct (read_fact st fact_file); simpl; [|done]|];
      intros [= <-]; (split; [eexists; apply lookup_insert_eq|]);
      intros name Hne; by rewrite lookup_insert_ne.
Qed.
